(** * Elden Ring mini prototype: the simulation core of [games.py]

    Shallow embedding of the per-frame simulation of [src/games.py] and the
    properties of its specification.

    Numbers.  The program computes with Python floats; the development
    idealises them as real numbers ([R]), so that [sqrt], [cos] and [sin] are
    the mathematical functions and arithmetic is exact.  Comparisons are the
    decidable comparisons of [R] ([Rlt_dec], [Rle_dec], [Req_dec_T]).

    Exceptions.  The one operation that can raise is pygame's
    [Vector2.normalize], which raises [ValueError] on the zero vector; it
    returns an [option], and the methods that call it return an [option] too
    ([None] = the exception escapes the method).

    Randomness.  Every draw from Python's [random] module is an explicit
    input of the function that makes it. *)

From Stdlib Require Import Reals Lra Lia Bool List.
Import ListNotations.

Open Scope R_scope.

(** ** Constants (games.py, lines 17-34) *)

Definition WIDTH : R := 1920.
Definition HEIGHT : R := 1080.
Definition PLAYER_SPEED : R := 180.
Definition ROLL_SPEED : R := 420.
Definition ATTACK_RANGE : R := 48.
Definition ATTACK_COOLDOWN : R := 0.45.
Definition ROLL_COOLDOWN : R := 0.8.
Definition INVULN_TIME : R := 0.28.
Definition STAMINA_MAX : R := 100.
Definition STAMINA_RECOVERY_RATE : R := 20.
Definition LIGHT_ATTACK_COST : R := 12.
Definition HEAVY_ATTACK_COST : R := 28.
Definition HEAVY_ATTACK_COOLDOWN : R := 1.0.
Definition ENEMY_SPEED : R := 100.
Definition ENEMY_DAMAGE : R := 12.

(** ** Comparisons and [clamp] *)

(** Boolean views of the comparisons the program branches on. *)
Definition gtb (x y : R) : bool := if Rlt_dec y x then true else false.
Definition leb (x y : R) : bool := if Rle_dec x y then true else false.
Definition ltb (x y : R) : bool := gtb y x.
Definition geb (x y : R) : bool := leb y x.
Definition eqb (x y : R) : bool := if Req_dec_T x y then true else false.

(** [def clamp(x, a, b): return max(a, min(b, x))] *)
Definition clamp (x a b : R) : R := Rmax a (Rmin b x).

(** ** [pygame.Vector2] *)

Definition Vector2 : Type := (R * R)%type.

Definition vx (v : Vector2) : R := fst v.
Definition vy (v : Vector2) : R := snd v.
Definition vadd (a b : Vector2) : Vector2 := (vx a + vx b, vy a + vy b).
Definition vsub (a b : Vector2) : Vector2 := (vx a - vx b, vy a - vy b).
(** [v * s], a vector times a scalar. *)
Definition vscale (v : Vector2) (s : R) : Vector2 := (vx v * s, vy v * s).
Definition length_squared (v : Vector2) : R := vx v * vx v + vy v * vy v.
Definition length (v : Vector2) : R := sqrt (length_squared v).

(** [Vector2.normalize()]: the vector divided by its length; raises
    [ValueError] ([None]) when the length is zero. *)
Definition normalize (v : Vector2) : option Vector2 :=
  let l := length v in
  if eqb l 0 then None else Some (vx v / l, vy v / l).

(** Sequencing of computations that may raise. *)
Definition bind {A B : Type} (m : option A) (f : A -> option B) : option B :=
  match m with
  | Some a => f a
  | None => None
  end.

Notation "x <- m ;; k" := (bind m (fun x => k))
  (at level 61, m at next level, right associativity).
Notation "' pat <- m ;; k" := (bind m (fun x => match x with pat => k end))
  (at level 61, pat pattern, m at next level, right associativity).

(** ** [class Entity] (games.py, lines 50-68) *)

Module Entity.

Record t : Type := mk {
  pos : Vector2;
  vel : Vector2;
  radius : R;
  hp : R;
  max_hp : R;
  alive : bool;
  invuln_timer : R
}.

Definition set_pos (e : t) (v : Vector2) : t :=
  mk v (vel e) (radius e) (hp e) (max_hp e) (alive e) (invuln_timer e).
Definition set_vel (e : t) (v : Vector2) : t :=
  mk (pos e) v (radius e) (hp e) (max_hp e) (alive e) (invuln_timer e).
Definition set_hp (e : t) (x : R) : t :=
  mk (pos e) (vel e) (radius e) x (max_hp e) (alive e) (invuln_timer e).
Definition set_max_hp (e : t) (x : R) : t :=
  mk (pos e) (vel e) (radius e) (hp e) x (alive e) (invuln_timer e).
Definition set_alive (e : t) (b : bool) : t :=
  mk (pos e) (vel e) (radius e) (hp e) (max_hp e) b (invuln_timer e).
Definition set_invuln_timer (e : t) (x : R) : t :=
  mk (pos e) (vel e) (radius e) (hp e) (max_hp e) (alive e) x.

(** [Entity.__init__(pos, radius=18)] *)
Definition init (p : Vector2) (r : R) : t := mk p (0, 0) r 100 100 true 0.0.

(** [update_timers(dt)], lines 59-61. *)
Definition update_timers (dt : R) (e : t) : t :=
  if gtb (invuln_timer e) 0
  then set_invuln_timer e (Rmax 0 (invuln_timer e - dt))
  else e.

(** [take_damage(amount)], lines 62-68: the returned flag and the entity
    after the call. *)
Definition take_damage (e : t) (amount : R) : bool * t :=
  if gtb (invuln_timer e) 0 || negb (alive e) then (false, e)
  else
    let e := set_hp e (hp e - amount) in
    let e := set_invuln_timer e 0.5 in
    let e := if leb (hp e) 0 then set_alive e false else e in
    (true, e).

End Entity.

(** ** Input snapshot: the entries of [keys] and [mouse_buttons] that
    [Player.update] reads *)

Record Input : Type := mkInput {
  K_w : bool; K_UP : bool;
  K_s : bool; K_DOWN : bool;
  K_a : bool; K_LEFT : bool;
  K_d : bool; K_RIGHT : bool;
  K_SPACE : bool;
  K_j : bool;
  K_k : bool;
  mouse0 : bool;  (* mouse_buttons[0] *)
  mouse2 : bool   (* mouse_buttons[2] *)
}.

Definition no_input : Input :=
  mkInput false false false false false false false false
          false false false false false.

(** ** [class Player(Entity)] (games.py, lines 74-158) *)

Module Player.

(** The inherited [Entity] attributes are the field [base]. *)
Record t : Type := mk {
  base : Entity.t;
  stamina : R;
  attack_timer : R;
  attack_cooldown : R;
  roll_timer : R;
  roll_cooldown : R;
  facing : Vector2;
  is_rolling : bool
}.

Definition set_base (p : t) (e : Entity.t) : t :=
  mk e (stamina p) (attack_timer p) (attack_cooldown p) (roll_timer p)
     (roll_cooldown p) (facing p) (is_rolling p).
Definition set_stamina (p : t) (x : R) : t :=
  mk (base p) x (attack_timer p) (attack_cooldown p) (roll_timer p)
     (roll_cooldown p) (facing p) (is_rolling p).
Definition set_attack_timer (p : t) (x : R) : t :=
  mk (base p) (stamina p) x (attack_cooldown p) (roll_timer p)
     (roll_cooldown p) (facing p) (is_rolling p).
Definition set_attack_cooldown (p : t) (x : R) : t :=
  mk (base p) (stamina p) (attack_timer p) x (roll_timer p)
     (roll_cooldown p) (facing p) (is_rolling p).
Definition set_roll_timer (p : t) (x : R) : t :=
  mk (base p) (stamina p) (attack_timer p) (attack_cooldown p) x
     (roll_cooldown p) (facing p) (is_rolling p).
Definition set_roll_cooldown (p : t) (x : R) : t :=
  mk (base p) (stamina p) (attack_timer p) (attack_cooldown p) (roll_timer p)
     x (facing p) (is_rolling p).
Definition set_facing (p : t) (v : Vector2) : t :=
  mk (base p) (stamina p) (attack_timer p) (attack_cooldown p) (roll_timer p)
     (roll_cooldown p) v (is_rolling p).
Definition set_is_rolling (p : t) (b : bool) : t :=
  mk (base p) (stamina p) (attack_timer p) (attack_cooldown p) (roll_timer p)
     (roll_cooldown p) (facing p) b.

Definition pos (p : t) : Vector2 := Entity.pos (base p).
Definition vel (p : t) : Vector2 := Entity.vel (base p).
Definition radius (p : t) : R := Entity.radius (base p).
Definition hp (p : t) : R := Entity.hp (base p).
Definition max_hp (p : t) : R := Entity.max_hp (base p).
Definition alive (p : t) : bool := Entity.alive (base p).
Definition invuln_timer (p : t) : R := Entity.invuln_timer (base p).
Definition set_pos (p : t) (v : Vector2) : t :=
  set_base p (Entity.set_pos (base p) v).
Definition set_vel (p : t) (v : Vector2) : t :=
  set_base p (Entity.set_vel (base p) v).
Definition set_invuln_timer (p : t) (x : R) : t :=
  set_base p (Entity.set_invuln_timer (base p) x).

(** [Player.__init__(pos)], lines 75-86. *)
Definition init (p : Vector2) : t :=
  let e := Entity.init p 16 in
  let e := Entity.set_max_hp e 120 in
  let e := Entity.set_hp e (Entity.max_hp e) in
  mk (Entity.set_invuln_timer e 0.0) STAMINA_MAX 0.0 0.0 0.0 0.0 (1, 0) false.

(** The inherited [take_damage]; the entity part changes, the flag is
    returned. *)
Definition take_damage (p : t) (amount : R) : bool * t :=
  let '(applied, e) := Entity.take_damage (base p) amount in
  (applied, set_base p e).

(** Lines 90-94: the raw direction read from the keys. *)
Definition read_direction (k : Input) : Vector2 :=
  let mv : Vector2 := (0, 0) in
  let mv := if K_w k || K_UP k then (vx mv, vy mv - 1) else mv in
  let mv := if K_s k || K_DOWN k then (vx mv, vy mv + 1) else mv in
  let mv := if K_a k || K_LEFT k then (vx mv - 1, vy mv) else mv in
  let mv := if K_d k || K_RIGHT k then (vx mv + 1, vy mv) else mv in
  mv.

(** Lines 89-100: entity timers, direction and facing, stamina
    regeneration.  Returns the player and the local [mv]. *)
Definition begin_frame (dt : R) (k : Input) (p : t) : option (t * Vector2) :=
  let p := set_base p (Entity.update_timers dt (base p)) in
  let mv := read_direction k in
  '(p, mv) <- (if gtb (length_squared mv) 0
               then mv' <- normalize mv ;; Some (set_facing p mv', mv')
               else Some (p, mv)) ;;
  let p := if negb (is_rolling p)
           then set_stamina p
                  (clamp (stamina p + STAMINA_RECOVERY_RATE * dt) 0 STAMINA_MAX)
           else p in
  Some (p, mv).

(** Lines 102-109: the roll block.  The flag tells whether the body of the
    inner [if] ran, that is whether a roll started. *)
Definition try_roll (k : Input) (p : t) : t * bool :=
  if leb (roll_cooldown p) 0 && (K_SPACE k || mouse2 k) then
    if geb (stamina p) 20 then
      let p := set_is_rolling p true in
      let p := set_roll_timer p 0.26 in
      let p := set_roll_cooldown p ROLL_COOLDOWN in
      let p := set_invuln_timer p INVULN_TIME in
      let p := set_stamina p (stamina p - 20) in
      let p := set_vel p (vscale (facing p) ROLL_SPEED) in
      (p, true)
    else (p, false)
  else (p, false).

(** Lines 112-117: the light attack block, with its start flag. *)
Definition try_light (k : Input) (p : t) : t * bool :=
  if leb (attack_cooldown p) 0 && (K_j k || mouse0 k) then
    if geb (stamina p) LIGHT_ATTACK_COST then
      let p := set_attack_timer p 0.18 in
      let p := set_attack_cooldown p ATTACK_COOLDOWN in
      let p := set_stamina p (stamina p - LIGHT_ATTACK_COST) in
      (p, true)
    else (p, false)
  else (p, false).

(** Lines 118-123: the heavy attack block, with its start flag. *)
Definition try_heavy (k : Input) (p : t) : t * bool :=
  if leb (attack_cooldown p) 0 && K_k k then
    if geb (stamina p) HEAVY_ATTACK_COST then
      let p := set_attack_timer p 0.34 in
      let p := set_attack_cooldown p HEAVY_ATTACK_COOLDOWN in
      let p := set_stamina p (stamina p - HEAVY_ATTACK_COST) in
      (p, true)
    else (p, false)
  else (p, false).

(** What started in a frame: roll, light attack, heavy attack. *)
Record Started : Type := mkStarted {
  roll_started : bool;
  light_started : bool;
  heavy_started : bool
}.

(** The local [attacking] of [update] (lines 111, 117, 123). *)
Definition attacking (s : Started) : bool := light_started s || heavy_started s.

(** Lines 102-123: the three action blocks in the order of the source. *)
Definition actions (k : Input) (p : t) : t * Started :=
  let '(p, r) := try_roll k p in
  let '(p, l) := try_light k p in
  let '(p, h) := try_heavy k p in
  (p, mkStarted r l h).

(** Lines 125-135: the countdowns of the player. *)
Definition tick_timers (dt : R) (p : t) : t :=
  let p := if gtb (attack_timer p) 0
           then set_attack_timer p (Rmax 0 (attack_timer p - dt)) else p in
  let p := if gtb (attack_cooldown p) 0
           then set_attack_cooldown p (Rmax 0 (attack_cooldown p - dt)) else p in
  let p := if gtb (roll_timer p) 0
           then
             let p := set_roll_timer p (Rmax 0 (roll_timer p - dt)) in
             if eqb (roll_timer p) 0
             then set_vel (set_is_rolling p false) (0, 0)
             else p
           else p in
  let p := if gtb (roll_cooldown p) 0
           then set_roll_cooldown p (Rmax 0 (roll_cooldown p - dt)) else p in
  p.

(** Lines 137-142: velocity blending, integration, arena clamp. *)
Definition move (dt : R) (mv : Vector2) (attacking : bool) (p : t) : t :=
  let p := if negb (is_rolling p) && negb attacking
           then
             let target_vel := vscale mv PLAYER_SPEED in
             set_vel p (vadd (vel p)
                          (vscale (vsub target_vel (vel p)) (clamp (10 * dt) 0 1)))
           else p in
  let p := set_pos p (vadd (pos p) (vscale (vel p) dt)) in
  let p := set_pos p (clamp (vx (pos p)) 20 (WIDTH - 20), vy (pos p)) in
  let p := set_pos p (vx (pos p), clamp (vy (pos p)) 20 (HEIGHT - 20)) in
  p.

(** [update(dt, keys, mouse_pos, mouse_buttons)], lines 88-142, with what
    started in the frame. *)
Definition update_started (dt : R) (k : Input) (p : t) : option (t * Started) :=
  '(p, mv) <- begin_frame dt k p ;;
  let '(p, s) := actions k p in
  let p := tick_timers dt p in
  Some (move dt mv (attacking s) p, s).

Definition update (dt : R) (k : Input) (p : t) : option t :=
  '(p, _) <- update_started dt k p ;; Some p.

(** [attack_hitbox()], lines 152-158: [Some None] is the returned [None],
    [Some (Some (center, radius))] the returned tuple, [None] an exception
    of [normalize]. *)
Definition attack_hitbox (p : t) : option (option (Vector2 * R)) :=
  if gtb (attack_timer p) 0 then
    let length := ATTACK_RANGE in
    f <- normalize (facing p) ;;
    let center := vadd (pos p) (vscale f (radius p + length / 2)) in
    let radius := length / 1.6 in
    Some (Some (center, radius))
  else Some None.

End Player.

(** ** [class Enemy(Entity)] (games.py, lines 160-200) *)

Module Enemy.

Record t : Type := mk {
  base : Entity.t;
  attack_cooldown : R;
  speed : R;
  respawn_time : R
}.

Definition set_base (e : t) (b : Entity.t) : t :=
  mk b (attack_cooldown e) (speed e) (respawn_time e).
Definition set_attack_cooldown (e : t) (x : R) : t :=
  mk (base e) x (speed e) (respawn_time e).
Definition set_respawn_time (e : t) (x : R) : t :=
  mk (base e) (attack_cooldown e) (speed e) x.

Definition pos (e : t) : Vector2 := Entity.pos (base e).
Definition vel (e : t) : Vector2 := Entity.vel (base e).
Definition radius (e : t) : R := Entity.radius (base e).
Definition hp (e : t) : R := Entity.hp (base e).
Definition max_hp (e : t) : R := Entity.max_hp (base e).
Definition alive (e : t) : bool := Entity.alive (base e).
Definition invuln_timer (e : t) : R := Entity.invuln_timer (base e).
Definition set_pos (e : t) (v : Vector2) : t :=
  set_base e (Entity.set_pos (base e) v).
Definition set_vel (e : t) (v : Vector2) : t :=
  set_base e (Entity.set_vel (base e) v).
Definition set_hp (e : t) (x : R) : t :=
  set_base e (Entity.set_hp (base e) x).
Definition set_alive (e : t) (b : bool) : t :=
  set_base e (Entity.set_alive (base e) b).

(** [Enemy.__init__(pos)], lines 161-167. *)
Definition init (p : Vector2) : t :=
  let b := Entity.init p 16 in
  let b := Entity.set_max_hp b 80 in
  let b := Entity.set_hp b (Entity.max_hp b) in
  mk b 0.0 ENEMY_SPEED 0.

(** The inherited [take_damage]. *)
Definition take_damage (e : t) (amount : R) : bool * t :=
  let '(applied, b) := Entity.take_damage (base e) amount in
  (applied, set_base e b).

(** The values [update] may draw from Python's [random] in one call:
    [random.uniform(3.0, 6.0)] (line 173), [random.random()] (line 195) and
    [random.random()] (line 196). *)
Record Rnd : Type := mkRnd {
  respawn_delay : R;
  wander_roll : R;
  wander_turn : R
}.

(** [math.tau] *)
Definition tau : R := 2 * PI.

(** Lines 171-179: the branch of a dead enemy (it returns before the
    arena clamp). *)
Definition update_dead (dt : R) (rnd : Rnd) (e : t) : t :=
  if leb (respawn_time e) 0 then
    set_respawn_time e (respawn_delay rnd)
  else
    let e := set_respawn_time e (respawn_time e - dt) in
    if leb (respawn_time e) 0 then
      let e := set_alive e true in
      set_hp e (max_hp e)
    else e.

(** Lines 184-192: the enemy sees the player (chase or attack, then the
    countdown of the attack cooldown). *)
Definition update_near (dt : R) (to_player : Vector2) (dist : R)
    (player : Player.t) (e : t) : option (t * Player.t) :=
  '(e, player) <-
    (if gtb dist (radius e + Player.radius player + 6) then
       n <- normalize to_player ;;
       let e := set_vel e (vscale n (speed e)) in
       let e := set_pos e (vadd (pos e) (vscale (vel e) dt)) in
       Some (e, player)
     else
       if leb (attack_cooldown e) 0 && leb (Player.invuln_timer player) 0 then
         let e := set_attack_cooldown e 1.0 in
         Some (e, snd (Player.take_damage player ENEMY_DAMAGE))
       else Some (e, player)) ;;
  let e := if gtb (attack_cooldown e) 0
           then set_attack_cooldown e (Rmax 0 (attack_cooldown e - dt))
           else e in
  Some (e, player).

(** Lines 194-198: wandering. *)
Definition update_far (dt : R) (rnd : Rnd) (e : t) : t :=
  let e := set_vel e (vscale (vel e) 0.9) in
  let e := if ltb (wander_roll rnd) 0.01
           then
             let ang := wander_turn rnd * tau in
             set_vel e (vscale (cos ang, sin ang) (speed e * 0.5))
           else e in
  set_pos e (vadd (pos e) (vscale (vel e) dt)).

(** [update(dt, player)], lines 169-200; the player is mutated by the
    attack, so it is returned with the enemy. *)
Definition update (dt : R) (rnd : Rnd) (player : Player.t) (e : t)
    : option (t * Player.t) :=
  let e := set_base e (Entity.update_timers dt (base e)) in
  if negb (alive e) then Some (update_dead dt rnd e, player)
  else
    let to_player := vsub (Player.pos player) (pos e) in
    let dist := length to_player in
    '(e, player) <-
      (if ltb dist 300 then update_near dt to_player dist player e
       else Some (update_far dt rnd e, player)) ;;
    let e := set_pos e (clamp (vx (pos e)) 20 (WIDTH - 20), vy (pos e)) in
    let e := set_pos e (vx (pos e), clamp (vy (pos e)) 20 (HEIGHT - 20)) in
    Some (e, player).

End Enemy.

(** ** Collision and the frame of [main_loop] (games.py, lines 209-276) *)

(** [circle_collide(a_pos, a_r, b_pos, b_r)], lines 209-210. *)
Definition circle_collide (a_pos : Vector2) (a_r : R) (b_pos : Vector2)
    (b_r : R) : bool :=
  leb (length_squared (vsub a_pos b_pos)) ((a_r + b_r) * (a_r + b_r)).

(** The simulated world: the globals [player] and [enemies]. *)
Record World : Type := mkWorld {
  player : Player.t;
  enemies : list Enemy.t
}.

(** What a frame receives from outside: the elapsed time, the input
    snapshot and the random draws (one [Enemy.Rnd] per enemy, by index; the
    draw of line 273; the positions of a new wave, lines 275-276). *)
Record FrameInput : Type := mkFrameInput {
  frame_dt : R;
  frame_keys : Input;
  enemy_rnd : nat -> Enemy.Rnd;
  wave_roll : R;
  wave_pos : nat -> Vector2
}.

(** Lines 241-242: [for e in enemies: e.update(dt, player)]; [i] is the
    index of the first enemy of [es]. *)
Fixpoint update_enemies (dt : R) (rnd : nat -> Enemy.Rnd) (i : nat)
    (pl : Player.t) (es : list Enemy.t) : option (list Enemy.t * Player.t) :=
  match es with
  | [] => Some ([], pl)
  | e :: es =>
      '(e, pl) <- Enemy.update dt (rnd i) pl e ;;
      '(es, pl) <- update_enemies dt rnd (S i) pl es ;;
      Some (e :: es, pl)
  end.

(** Lines 248-252: the body of the hit loop for one enemy. *)
Definition resolve_hit (center : Vector2) (radius : R) (pl : Player.t)
    (en : Enemy.t) : option Enemy.t :=
  if Enemy.alive en && circle_collide center radius (Enemy.pos en) (Enemy.radius en)
  then
    let en := snd (Enemy.take_damage en 28) in
    let dir := vsub (Enemy.pos en) (Player.pos pl) in
    if gtb (length_squared dir) 0 then
      n <- normalize dir ;;
      Some (Enemy.set_pos en (vadd (Enemy.pos en) (vscale n 12)))
    else Some en
  else Some en.

Fixpoint resolve_hits (center : Vector2) (radius : R) (pl : Player.t)
    (es : list Enemy.t) : option (list Enemy.t) :=
  match es with
  | [] => Some []
  | en :: es =>
      en <- resolve_hit center radius pl en ;;
      es <- resolve_hits center radius pl es ;;
      Some (en :: es)
  end.

(** Line 270: [sum(1 for e in enemies if e.alive)]. *)
Definition alive_n (es : list Enemy.t) : nat :=
  List.length (filter Enemy.alive es).

(** Lines 273-276: the group respawn. *)
Definition respawn_wave (roll : R) (spawn : nat -> Vector2)
    (es : list Enemy.t) : list Enemy.t :=
  if Nat.eqb (alive_n es) 0 && ltb roll 0.01
  then map (fun i => Enemy.init (spawn i)) (seq 0 4)
  else es.

(** One iteration of the loop of [main_loop] (lines 240-252 and 270-276),
    without the event pump and the drawing. *)
Definition frame (i : FrameInput) (w : World) : option World :=
  pl <- Player.update (frame_dt i) (frame_keys i) (player w) ;;
  '(es, pl) <- update_enemies (frame_dt i) (enemy_rnd i) 0 pl (enemies w) ;;
  hit <- Player.attack_hitbox pl ;;
  es <- match hit with
        | Some (center, radius) => resolve_hits center radius pl es
        | None => Some es
        end ;;
  Some (mkWorld pl (respawn_wave (wave_roll i) (wave_pos i) es)).

(** The frames of a run, in order. *)
Fixpoint run (ins : list FrameInput) (w : World) : option World :=
  match ins with
  | [] => Some w
  | i :: ins => w <- frame i w ;; run ins w
  end.

(** The same for the player alone. *)
Fixpoint run_player (fs : list (R * Input)) (p : Player.t) : option Player.t :=
  match fs with
  | [] => Some p
  | (dt, k) :: fs => p <- Player.update dt k p ;; run_player fs p
  end.

(** ** The bars of the display (games.py, lines 44-48, 69-72, 215-221)

    Of the drawing code, the parts that compute: the fill ratio of the
    bars and the rectangle of the fill.  A [pygame.Rect] holds integers. *)

Record Rect : Type := mkRect {
  rect_x : Z;
  rect_y : Z;
  rect_w : Z;
  rect_h : Z
}.

(** Python's [int(x)] on a float: truncation towards zero. *)
Definition int (x : R) : Z :=
  if Rle_dec 0 x then Int_part x else (- Int_part (- x))%Z.

(** [draw_bar], line 46: the rectangle [inner] of the fill. *)
Definition draw_bar_inner (rect : Rect) (pct : R) : Rect :=
  mkRect (rect_x rect + 2) (rect_y rect + 2)
         (Z.max 0 (int (IZR (rect_w rect - 4) * pct)))
         (rect_h rect - 4).

(** [Entity.draw_health], line 70: the ratio [pct]; the division is
    guarded by [max_hp > 0]. *)
Definition draw_health_pct (e : Entity.t) : R :=
  clamp (if gtb (Entity.max_hp e) 0 then Entity.hp e / Entity.max_hp e else 0)
        0 1.

(** [Entity.draw_health], line 71: the rectangle of the bar, for the
    default [offset=(0,-30)]. *)
Definition draw_health_rect (e : Entity.t) : Rect :=
  mkRect (int (vx (Entity.pos e) - 30 + 0)) (int (vy (Entity.pos e) + -30)) 60 8.

(** [draw_hud], line 216: the ratio of the player's health bar; the
    division is not guarded and raises [ZeroDivisionError] ([None]) when
    [max_hp] is 0. *)
Definition draw_hud_hp_pct (p : Player.t) : option R :=
  if eqb (Player.max_hp p) 0 then None
  else Some (clamp (Player.hp p / Player.max_hp p) 0 1).

(** [draw_hud], line 219: the ratio of the stamina bar. *)
Definition draw_hud_stamina_pct (p : Player.t) : R :=
  clamp (Player.stamina p / STAMINA_MAX) 0 1.



(** ** The timer rule of the specification *)

(** Section 4.1 of the specification, in its words:
    [advance(timer, dt) -> max(0, timer - dt)]. *)
Definition advance (timer dt : R) : R := Rmax 0 (timer - dt).

(** ** Predicates of the statements *)

(** The attributes of an entity other than its position and velocity. *)
Definition vitals (e : Entity.t) : R * R * R * bool * R :=
  (Entity.radius e, Entity.hp e, Entity.max_hp e, Entity.alive e,
   Entity.invuln_timer e).

(** The range of [hp] the code maintains: at most [max_hp], and positive
    while the entity is alive; the radius is not negative. *)
Definition entity_ok (e : Entity.t) : Prop :=
  0 <= Entity.radius e /\ 0 < Entity.max_hp e /\
  Entity.hp e <= Entity.max_hp e /\
  (Entity.alive e = true -> 0 < Entity.hp e).

Definition player_ok (p : Player.t) : Prop :=
  entity_ok (Player.base p) /\ length_squared (Player.facing p) = 1.

Definition world_ok (w : World) : Prop :=
  player_ok (player w) /\ Forall (fun e => entity_ok (Enemy.base e)) (enemies w).

(** The enemy strikes when the player is in reach, its cooldown has run
    out and the player is not invulnerable (lines 187-188). *)
Definition strikes (dist : R) (pl : Player.t) (e : Enemy.t) : bool :=
  negb (gtb dist (Enemy.radius e + Player.radius pl + 6))
  && (leb (Enemy.attack_cooldown e) 0 && leb (Player.invuln_timer pl) 0).

(** The arena less its margin of 20 (lines 141-142, 199-200). *)
Definition in_arena (v : Vector2) : Prop :=
  20 <= vx v <= WIDTH - 20 /\ 20 <= vy v <= HEIGHT - 20.

(** The roll state at the end of a frame: [is_rolling] is exactly
    [roll_timer > 0], and during a roll the cooldown runs 0.54 s ahead of
    the timer (0.8 against 0.26). *)
Definition roll_ok (p : Player.t) : Prop :=
  0 <= Player.roll_timer p /\
  Player.is_rolling p = gtb (Player.roll_timer p) 0 /\
  (0 < Player.roll_timer p ->
   Player.roll_cooldown p = Player.roll_timer p + 0.54).

(** The attack state at the end of a frame: while the attack window is
    open the cooldown runs ahead of the timer, by 0.27 s for a light attack
    (0.45 against 0.18) and by 0.66 s for a heavy one (1.0 against 0.34). *)
Definition attack_ok (p : Player.t) : Prop :=
  0 <= Player.attack_timer p /\
  (0 < Player.attack_timer p ->
   Player.attack_cooldown p = Player.attack_timer p + 0.27 \/
   Player.attack_cooldown p = Player.attack_timer p + 0.66).

(** The invulnerability window of a roll outlasts the roll by 0.02 s
    (0.28 against 0.26). *)
Definition roll_protected (p : Player.t) : Prop :=
  0 < Player.roll_timer p ->
  Player.roll_timer p + 0.02 <= Player.invuln_timer p.

(** While rolling the player moves at the roll speed. *)
Definition roll_speed_ok (p : Player.t) : Prop :=
  length_squared (Player.facing p) = 1 /\
  (Player.is_rolling p = true ->
   length_squared (Player.vel p) = ROLL_SPEED * ROLL_SPEED).

(** A key as a number: 1 when pressed. *)
Definition pressed (b : bool) : R := if b then 1 else 0.

(** The player never moves faster than the roll speed. *)
Definition speed_ok (p : Player.t) : Prop :=
  length_squared (Player.facing p) = 1 /\
  length_squared (Player.vel p) <= ROLL_SPEED * ROLL_SPEED.

(** The world [main_loop] starts from (lines 212-213), for the four
    random enemy positions [spawn 0 .. spawn 3]. *)
Definition initial_world (spawn : nat -> Vector2) : World :=
  mkWorld (Player.init (WIDTH / 2, HEIGHT / 2))
          (map (fun i => Enemy.init (spawn i)) (seq 0 4)).

(** ** Inputs of the examples *)

(** Roll and light attack pressed. *)
Definition roll_and_light : Input :=
  mkInput false false false false false false false false
          true true false false false.

(** Roll pressed, nothing else. *)
Definition roll_only : Input :=
  mkInput false false false false false false false false
          true false false false false.

(** Both attacks pressed. *)
Definition light_and_heavy : Input :=
  mkInput false false false false false false false false
          false true true false false.

(** A frame of 0.01 s with no key pressed. *)
Definition idle_frame : FrameInput :=
  mkFrameInput 0.01 no_input (fun _ => Enemy.mkRnd 3 0.5 0.5) 0.5
               (fun _ => (500, 500)).

(** * Properties *)

(** ** Comparisons *)

Lemma gtb_true x y : gtb x y = true <-> y < x.
Proof. unfold gtb; destruct (Rlt_dec y x); split; intros; lra || congruence. Qed.

Lemma gtb_false x y : gtb x y = false <-> x <= y.
Proof. unfold gtb; destruct (Rlt_dec y x); split; intros; lra || congruence. Qed.

Lemma leb_true x y : leb x y = true <-> x <= y.
Proof. unfold leb; destruct (Rle_dec x y); split; intros; lra || congruence. Qed.

Lemma leb_false x y : leb x y = false <-> y < x.
Proof. unfold leb; destruct (Rle_dec x y); split; intros; lra || congruence. Qed.

Lemma ltb_true x y : ltb x y = true <-> x < y.
Proof. apply gtb_true. Qed.

Lemma geb_true x y : geb x y = true <-> y <= x.
Proof. apply leb_true. Qed.

Lemma geb_false x y : geb x y = false <-> x < y.
Proof. apply leb_false. Qed.

Lemma eqb_true x y : eqb x y = true <-> x = y.
Proof. unfold eqb; destruct (Req_dec_T x y); split; intros; lra || congruence. Qed.

Lemma eqb_false x y : eqb x y = false <-> x <> y.
Proof. unfold eqb; destruct (Req_dec_T x y); split; intros; congruence. Qed.

(** Case analysis on every comparison of the goal, closing the branches
    that contradict the context. *)
Ltac unfold_constants :=
  unfold WIDTH, HEIGHT, PLAYER_SPEED, ROLL_SPEED, ATTACK_RANGE,
    ATTACK_COOLDOWN, ROLL_COOLDOWN, INVULN_TIME, STAMINA_MAX,
    STAMINA_RECOVERY_RATE, LIGHT_ATTACK_COST, HEAVY_ATTACK_COST,
    HEAVY_ATTACK_COOLDOWN, ENEMY_SPEED, ENEMY_DAMAGE in *.

Ltac cmp_cases :=
  unfold_constants;
  unfold ltb, geb, gtb, leb, eqb, clamp, advance, Rmax, Rmin in *;
  repeat match goal with
    | |- context [Rlt_dec ?a ?b] => destruct (Rlt_dec a b); try lra
    | |- context [Rle_dec ?a ?b] => destruct (Rle_dec a b); try lra
    | |- context [Req_dec_T ?a ?b] => destruct (Req_dec_T a b); try lra
    | _ : context [Rlt_dec ?a ?b] |- _ => destruct (Rlt_dec a b); try lra
    | _ : context [Rle_dec ?a ?b] |- _ => destruct (Rle_dec a b); try lra
    | _ : context [Req_dec_T ?a ?b] |- _ => destruct (Req_dec_T a b); try lra
    end;
  try lra.

Lemma clamp_bounds x a b : a <= b -> a <= clamp x a b <= b.
Proof. intros; cmp_cases. Qed.


(** ** Damage intake *)

(** The rejecting branch of [take_damage]. *)
Lemma take_damage_rejected (e : Entity.t) (amount : R) :
  0 < Entity.invuln_timer e \/ Entity.alive e = false ->
  Entity.take_damage e amount = (false, e).
Proof.
  unfold Entity.take_damage; intros [Hinv | Hdead].
  - apply gtb_true in Hinv; now rewrite Hinv.
  - rewrite Hdead; now rewrite orb_true_r.
Qed.

(** The applying branch of [take_damage], as the record it builds. *)
Lemma take_damage_applied (e : Entity.t) (amount : R) :
  Entity.invuln_timer e <= 0 -> Entity.alive e = true ->
  Entity.take_damage e amount =
  (true, Entity.mk (Entity.pos e) (Entity.vel e) (Entity.radius e)
           (Entity.hp e - amount) (Entity.max_hp e)
           (negb (leb (Entity.hp e - amount) 0)) 0.5).
Proof.
  intros Hinv Halive; unfold Entity.take_damage.
  rewrite (proj2 (gtb_false _ _) Hinv), Halive; cbn [negb orb].
  cbn; destruct (leb (Entity.hp e - amount) 0);
    unfold Entity.set_alive, Entity.set_invuln_timer, Entity.set_hp; cbn;
    [reflexivity | now rewrite Halive].
Qed.

(** C2.  [take_damage] returns [False] and changes nothing when the
    invulnerability timer is positive or the entity is not alive; otherwise
    it subtracts the amount from [hp], sets the invulnerability timer to
    0.5, clears [alive] exactly when the resulting [hp] is at most 0 (the
    other attributes keep their values) and returns [True]. *)
Theorem take_damage_spec (e : Entity.t) (amount : R) :
  ((0 < Entity.invuln_timer e \/ Entity.alive e = false) ->
   Entity.take_damage e amount = (false, e)) /\
  (~ (0 < Entity.invuln_timer e \/ Entity.alive e = false) ->
   exists e',
     Entity.take_damage e amount = (true, e') /\
     Entity.hp e' = Entity.hp e - amount /\
     Entity.invuln_timer e' = 0.5 /\
     (Entity.alive e' = false <-> Entity.hp e' <= 0) /\
     Entity.pos e' = Entity.pos e /\ Entity.vel e' = Entity.vel e /\
     Entity.radius e' = Entity.radius e /\
     Entity.max_hp e' = Entity.max_hp e).
Proof.
  split; [apply take_damage_rejected|].
  intros Hok.
  assert (Hinv : Entity.invuln_timer e <= 0).
  { destruct (Rle_dec (Entity.invuln_timer e) 0); [assumption|].
    exfalso; apply Hok; left; lra. }
  assert (Halive : Entity.alive e = true).
  { destruct (Entity.alive e); [reflexivity | exfalso; apply Hok; now right]. }
  eexists; split; [now apply take_damage_applied|]; cbn.
  repeat split; try reflexivity.
  - destruct (leb (Entity.hp e - amount) 0) eqn:Hhp;
      [now apply leb_true in Hhp | discriminate].
  - intros Hhp; apply leb_true in Hhp; now rewrite Hhp.
Qed.

Lemma take_damage_spec_witness :
  Entity.take_damage (Entity.set_invuln_timer (Entity.init (0, 0) 18) 0.3) 28
    = (false, Entity.set_invuln_timer (Entity.init (0, 0) 18) 0.3) /\
  exists e',
    Entity.take_damage (Entity.init (0, 0) 18) 28 = (true, e') /\
    Entity.hp e' = Entity.hp (Entity.init (0, 0) 18) - 28 /\
    Entity.invuln_timer e' = 0.5 /\
    (Entity.alive e' = false <-> Entity.hp e' <= 0) /\
    Entity.pos e' = (0, 0) /\ Entity.vel e' = (0, 0) /\
    Entity.radius e' = 18 /\ Entity.max_hp e' = 100.
Proof.
  split.
  - apply (proj1 (take_damage_spec _ 28)); left; cbn; lra.
  - apply (proj2 (take_damage_spec (Entity.init (0, 0) 18) 28)).
    cbn; intros [H | H]; [lra | discriminate].
Defined.

(** C10.  A killing blow on an alive entity whose invulnerability timer has
    run out still sets the timer to 0.5 while clearing [alive]; afterwards
    damage is rejected, and each of the two conditions rejects it on its
    own: with [alive] put back the timer rejects, with the timer put back
    to 0 the cleared [alive] rejects. *)
Theorem killing_blow_sets_invulnerability (e : Entity.t) (amount : R) :
  Entity.alive e = true ->
  Entity.invuln_timer e <= 0 ->
  Entity.hp e - amount <= 0 ->
  exists e',
    Entity.take_damage e amount = (true, e') /\
    Entity.invuln_timer e' = 0.5 /\
    Entity.alive e' = false /\
    (forall a, Entity.take_damage e' a = (false, e')) /\
    (forall a, Entity.take_damage (Entity.set_alive e' true) a
               = (false, Entity.set_alive e' true)) /\
    (forall a, Entity.take_damage (Entity.set_invuln_timer e' 0) a
               = (false, Entity.set_invuln_timer e' 0)).
Proof.
  intros Halive Hinv Hkill.
  eexists; split; [now apply take_damage_applied|].
  rewrite (proj2 (leb_true _ _) Hkill); cbn.
  repeat split; intros a.
  - apply take_damage_rejected; now right.
  - apply take_damage_rejected; left; cbn; lra.
  - apply take_damage_rejected; now right.
Qed.

Lemma killing_blow_sets_invulnerability_witness :
  exists e',
    Entity.take_damage (Entity.mk (500, 500) (0, 0) 16 24 80 true 0) 28
      = (true, e') /\
    Entity.invuln_timer e' = 0.5 /\
    Entity.alive e' = false /\
    (forall a, Entity.take_damage e' a = (false, e')) /\
    (forall a, Entity.take_damage (Entity.set_alive e' true) a
               = (false, Entity.set_alive e' true)) /\
    (forall a, Entity.take_damage (Entity.set_invuln_timer e' 0) a
               = (false, Entity.set_invuln_timer e' 0)).
Proof.
  apply (killing_blow_sets_invulnerability
           (Entity.mk (500, 500) (0, 0) 16 24 80 true 0) 28); cbn.
  - reflexivity.
  - lra.
  - lra.
Defined.

(** ** The range of [hp] *)

(** C1, as stated, fails: an alive enemy with 24 hit points left and no
    invulnerability takes the 28 points of a player hit, and its [hp] is
    -4. *)
Lemma hp_nonnegative_counterexample :
  let e := Entity.mk (500, 500) (0, 0) 16 24 80 true 0 in
  Entity.alive e = true /\ Entity.invuln_timer e <= 0 /\
  0 <= Entity.hp e <= Entity.max_hp e /\
  Entity.take_damage e 28 = (true, Entity.mk (500, 500) (0, 0) 16 (24 - 28) 80 false 0.5) /\
  Entity.hp (snd (Entity.take_damage e 28)) < 0.
Proof.
  assert (H : Entity.take_damage (Entity.mk (500, 500) (0, 0) 16 24 80 true 0) 28
              = (true, Entity.mk (500, 500) (0, 0) 16 (24 - 28) 80 false 0.5)).
  { unfold Entity.take_damage; cbn.
    rewrite (proj2 (gtb_false 0 0)) by lra; cbn.
    rewrite (proj2 (leb_true (24 - 28) 0)) by lra; reflexivity. }
  cbn zeta; rewrite H; cbn; repeat split; lra.
Qed.

(** The state of the counterexample is reached by the program: a fresh
    enemy hit twice by the player, the grace period elapsing in between. *)
Example hp_24_is_reached :
  let e0 := Enemy.base (Enemy.init (500, 500)) in
  let e1 := Entity.update_timers 0.5 (snd (Entity.take_damage e0 28)) in
  let e2 := Entity.update_timers 0.5 (snd (Entity.take_damage e1 28)) in
  Entity.alive e2 = true /\ Entity.invuln_timer e2 = 0 /\ Entity.hp e2 = 24 /\
  Entity.max_hp e2 = 80.
Proof.
  cbn zeta.
  unfold Entity.take_damage, Entity.update_timers; cbn.
  rewrite (proj2 (gtb_false 0.0 0)) by lra; cbn.
  rewrite (proj2 (leb_false (80 - 28) 0)) by lra; cbn.
  rewrite (proj2 (gtb_true 0.5 0)) by lra; cbn.
  rewrite (proj2 (gtb_false (Rmax 0 (0.5 - 0.5)) 0)) by (cmp_cases); cbn.
  rewrite (proj2 (leb_false (80 - 28 - 28) 0)) by lra; cbn.
  rewrite (proj2 (gtb_true 0.5 0)) by lra; cbn.
  repeat split; cmp_cases.
Qed.

(** ** Vectors *)

Lemma length_squared_nonneg (v : Vector2) : 0 <= length_squared v.
Proof. unfold length_squared; nra. Qed.

Lemma length_nonneg (v : Vector2) : 0 <= length v.
Proof. apply sqrt_pos. Qed.

Lemma length_sqr (v : Vector2) : length v * length v = length_squared v.
Proof. apply sqrt_sqrt, length_squared_nonneg. Qed.


(** [normalize] does not raise on a vector that is not zero, and returns a
    unit vector. *)
Lemma normalize_nonzero (v : Vector2) :
  0 < length_squared v ->
  exists n, normalize v = Some n /\ length_squared n = 1.
Proof.
  intros Hpos.
  assert (Hl : 0 < length v) by (now apply sqrt_lt_R0).
  unfold normalize.
  rewrite (proj2 (eqb_false (length v) 0)) by lra.
  eexists; split; [reflexivity|].
  pose proof (length_sqr v) as Hsq.
  remember (length v) as l eqn:El; clear El.
  destruct v as [x y]; unfold length_squared in *; cbn [vx vy fst snd] in *.
  replace (x / l * (x / l) + y / l * (y / l))
    with ((x * x + y * y) / (l * l)) by (field; lra).
  rewrite <- Hsq; field; lra.
Qed.

(** A unit vector is its own normalisation. *)
Lemma normalize_unit (v : Vector2) :
  length_squared v = 1 -> normalize v = Some v.
Proof.
  intros Hu; unfold normalize, length; rewrite Hu, sqrt_1.
  rewrite (proj2 (eqb_false 1 0)) by lra.
  destruct v as [x y]; cbn [vx vy fst snd].
  replace (x / 1) with x by field; replace (y / 1) with y by field.
  reflexivity.
Qed.

(** ** Collision *)



(** ** The attack hitbox *)

(** The hitbox while the attack window is open; [facing] is a unit vector,
    so its normalisation is [facing] itself. *)
Lemma attack_hitbox_active (p : Player.t) :
  length_squared (Player.facing p) = 1 -> 0 < Player.attack_timer p ->
  Player.attack_hitbox p =
  Some (Some (vadd (Player.pos p)
                (vscale (Player.facing p) (Player.radius p + 24)), 30)).
Proof.
  intros Hu Ht; unfold Player.attack_hitbox.
  rewrite (proj2 (gtb_true _ _) Ht), (normalize_unit _ Hu); cbn [bind].
  unfold ATTACK_RANGE; do 3 f_equal; [do 2 f_equal|]; lra.
Qed.

Lemma attack_hitbox_idle (p : Player.t) :
  Player.attack_timer p <= 0 -> Player.attack_hitbox p = Some None.
Proof.
  intros Ht; unfold Player.attack_hitbox.
  now rewrite (proj2 (gtb_false _ _) Ht).
Qed.

(** C8.  For a player whose [facing] is a unit vector (it always is, see
    [update_keeps_unit_facing]), [attack_hitbox] returns a hitbox exactly
    when [attack_timer > 0]: a circle of radius 30 centred at the position
    plus [facing] times (radius + 24); with [attack_timer <= 0] it returns
    [None]. *)
Theorem attack_hitbox_spec (p : Player.t) :
  length_squared (Player.facing p) = 1 ->
  (0 < Player.attack_timer p ->
   Player.attack_hitbox p =
   Some (Some (vadd (Player.pos p)
                 (vscale (Player.facing p) (Player.radius p + 24)), 30))) /\
  (Player.attack_timer p <= 0 -> Player.attack_hitbox p = Some None) /\
  ((exists h, Player.attack_hitbox p = Some (Some h)) <->
   0 < Player.attack_timer p).
Proof.
  intros Hu.
  split; [now apply attack_hitbox_active|].
  split; [apply attack_hitbox_idle|].
  split.
  - intros [h Hh]. destruct (Rlt_dec 0 (Player.attack_timer p)); auto.
    rewrite attack_hitbox_idle in Hh by lra; discriminate.
  - intros Ht; eexists; now apply attack_hitbox_active.
Qed.

Lemma attack_hitbox_spec_witness :
  Player.attack_hitbox (Player.set_attack_timer (Player.init (0, 0)) 0.18)
    = Some (Some (vadd (0, 0) (vscale (1, 0) (16 + 24)), 30)) /\
  Player.attack_hitbox (Player.init (0, 0)) = Some None.
Proof.
  assert (Hu : length_squared (1, 0) = 1) by (unfold length_squared; cbn; lra).
  split.
  - apply (attack_hitbox_spec
             (Player.set_attack_timer (Player.init (0, 0)) 0.18) Hu).
    cbn; lra.
  - apply (attack_hitbox_spec (Player.init (0, 0)) Hu).
    cbn; lra.
Defined.

(** ** The action blocks of [Player.update] *)

(** Turns the boolean comparisons of the context into inequalities. *)
Ltac reflect_cmp :=
  unfold ltb, geb in *;
  repeat match goal with
    | H : gtb _ _ = true |- _ => apply gtb_true in H
    | H : gtb _ _ = false |- _ => apply gtb_false in H
    | H : leb _ _ = true |- _ => apply leb_true in H
    | H : leb _ _ = false |- _ => apply leb_false in H
    | H : eqb _ _ = true |- _ => apply eqb_true in H
    | H : eqb _ _ = false |- _ => apply eqb_false in H
    end.

Lemma try_roll_spec (k : Input) (p : Player.t) :
  (snd (Player.try_roll k p) = true <->
   (K_SPACE k || mouse2 k = true) /\ Player.roll_cooldown p <= 0 /\
   20 <= Player.stamina p) /\
  (snd (Player.try_roll k p) = true ->
   fst (Player.try_roll k p) =
   Player.mk
     (Entity.set_vel (Entity.set_invuln_timer (Player.base p) INVULN_TIME)
        (vscale (Player.facing p) ROLL_SPEED))
     (Player.stamina p - 20) (Player.attack_timer p)
     (Player.attack_cooldown p) 0.26 ROLL_COOLDOWN (Player.facing p) true) /\
  (snd (Player.try_roll k p) = false -> fst (Player.try_roll k p) = p).
Proof.
  unfold Player.try_roll.
  destruct (leb (Player.roll_cooldown p) 0) eqn:Hc;
    destruct (K_SPACE k || mouse2 k) eqn:Hk;
    destruct (geb (Player.stamina p) 20) eqn:Hs;
    reflect_cmp; cbn; repeat split; intros; try tauto;
    try discriminate; try lra;
    match goal with H : _ /\ _ |- _ => destruct H as (? & ? & ?) end;
    try discriminate; try lra.
Qed.

Lemma try_light_spec (k : Input) (p : Player.t) :
  (snd (Player.try_light k p) = true <->
   (K_j k || mouse0 k = true) /\ Player.attack_cooldown p <= 0 /\
   LIGHT_ATTACK_COST <= Player.stamina p) /\
  (snd (Player.try_light k p) = true ->
   fst (Player.try_light k p) =
   Player.mk (Player.base p) (Player.stamina p - LIGHT_ATTACK_COST) 0.18
     ATTACK_COOLDOWN (Player.roll_timer p) (Player.roll_cooldown p)
     (Player.facing p) (Player.is_rolling p)) /\
  (snd (Player.try_light k p) = false -> fst (Player.try_light k p) = p).
Proof.
  unfold Player.try_light.
  destruct (leb (Player.attack_cooldown p) 0) eqn:Hc;
    destruct (K_j k || mouse0 k) eqn:Hk;
    destruct (geb (Player.stamina p) LIGHT_ATTACK_COST) eqn:Hs;
    reflect_cmp; cbn; repeat split; intros; try tauto;
    try discriminate; try lra;
    match goal with H : _ /\ _ |- _ => destruct H as (? & ? & ?) end;
    try discriminate; try lra.
Qed.

Lemma try_heavy_spec (k : Input) (p : Player.t) :
  (snd (Player.try_heavy k p) = true <->
   K_k k = true /\ Player.attack_cooldown p <= 0 /\
   HEAVY_ATTACK_COST <= Player.stamina p) /\
  (snd (Player.try_heavy k p) = true ->
   fst (Player.try_heavy k p) =
   Player.mk (Player.base p) (Player.stamina p - HEAVY_ATTACK_COST) 0.34
     HEAVY_ATTACK_COOLDOWN (Player.roll_timer p) (Player.roll_cooldown p)
     (Player.facing p) (Player.is_rolling p)) /\
  (snd (Player.try_heavy k p) = false -> fst (Player.try_heavy k p) = p).
Proof.
  unfold Player.try_heavy.
  destruct (leb (Player.attack_cooldown p) 0) eqn:Hc;
    destruct (K_k k) eqn:Hk;
    destruct (geb (Player.stamina p) HEAVY_ATTACK_COST) eqn:Hs;
    reflect_cmp; cbn; repeat split; intros; try tauto;
    try discriminate; try lra;
    match goal with H : _ /\ _ |- _ => destruct H as (? & ? & ?) end;
    try discriminate; try lra.
Qed.

(** The first part of a frame does not raise: the direction is normalised
    only when it is not zero. *)
Lemma begin_frame_spec (dt : R) (k : Input) (p : Player.t) :
  exists f mv,
    Player.begin_frame dt k p =
    Some (Player.mk (Entity.update_timers dt (Player.base p))
            (if Player.is_rolling p then Player.stamina p
             else clamp (Player.stamina p + STAMINA_RECOVERY_RATE * dt)
                    0 STAMINA_MAX)
            (Player.attack_timer p) (Player.attack_cooldown p)
            (Player.roll_timer p) (Player.roll_cooldown p) f
            (Player.is_rolling p), mv) /\
    (f = Player.facing p \/ length_squared f = 1).
Proof.
  unfold Player.begin_frame.
  destruct p as [b st at_ ac rt rc f rolling].
  destruct (gtb (length_squared (Player.read_direction k)) 0) eqn:Hmv.
  - apply gtb_true in Hmv.
    destruct (normalize_nonzero _ Hmv) as (n & Hn & Hu).
    rewrite Hn; cbn.
    exists n, n; split; [|now right].
    destruct rolling; reflexivity.
  - cbn. exists f, (Player.read_direction k); split; [|now left].
    destruct rolling; reflexivity.
Qed.

Lemma actions_unfold (k : Input) (p : Player.t) :
  Player.actions k p =
  (fst (Player.try_heavy k (fst (Player.try_light k (fst (Player.try_roll k p))))),
   Player.mkStarted
     (snd (Player.try_roll k p))
     (snd (Player.try_light k (fst (Player.try_roll k p))))
     (snd (Player.try_heavy k (fst (Player.try_light k (fst (Player.try_roll k p))))))).
Proof.
  unfold Player.actions.
  destruct (Player.try_roll k p) as [p2 r]; cbn [fst snd].
  destruct (Player.try_light k p2) as [p3 l]; cbn [fst snd].
  destruct (Player.try_heavy k p3) as [p4 h]; reflexivity.
Qed.

(** [update] never raises, and a frame is the first part, the three action
    blocks, the countdowns and the movement, in this order. *)
Lemma update_started_spec (dt : R) (k : Input) (p : Player.t) :
  exists p1 mv,
    Player.begin_frame dt k p = Some (p1, mv) /\
    Player.update_started dt k p =
    Some (Player.move dt mv (Player.attacking (snd (Player.actions k p1)))
            (Player.tick_timers dt (fst (Player.actions k p1))),
          snd (Player.actions k p1)) /\
    Player.base p1 = Entity.update_timers dt (Player.base p) /\
    Player.stamina p1 =
      (if Player.is_rolling p then Player.stamina p
       else clamp (Player.stamina p + STAMINA_RECOVERY_RATE * dt) 0 STAMINA_MAX) /\
    Player.attack_timer p1 = Player.attack_timer p /\
    Player.attack_cooldown p1 = Player.attack_cooldown p /\
    Player.roll_timer p1 = Player.roll_timer p /\
    Player.roll_cooldown p1 = Player.roll_cooldown p /\
    Player.is_rolling p1 = Player.is_rolling p /\
    (Player.facing p1 = Player.facing p \/ length_squared (Player.facing p1) = 1).
Proof.
  destruct (begin_frame_spec dt k p) as (f & mv & Hb & Hf).
  eexists; exists mv; split; [exact Hb|].
  unfold Player.update_started; rewrite Hb; cbn [bind].
  match goal with |- context [Player.actions k ?q] =>
    destruct (Player.actions k q) as [p2 s] end.
  cbn; repeat split; auto.
Qed.

(** Evaluation at concrete inputs: every comparison between closed
    numbers is decided by arithmetic. *)
Ltac decide_cmp a b lem_true lem_false :=
  first [ rewrite (proj2 (lem_true a b)) by cmp_cases
        | rewrite (proj2 (lem_false a b)) by cmp_cases ].

Ltac eval_frame :=
  unfold ltb, geb;
  repeat (cbn -[Rmax Rmin];
          match goal with
          | |- context [gtb ?a ?b] => decide_cmp a b gtb_true gtb_false
          | |- context [leb ?a ?b] => decide_cmp a b leb_true leb_false
          | |- context [eqb ?a ?b] => decide_cmp a b eqb_true eqb_false
          end);
  cbn -[Rmax Rmin].

Lemma roll_attack_exclusive_counterexample :
  exists pf,
    Player.update_started 0.01 roll_and_light (Player.init (960, 540))
      = Some (pf, Player.mkStarted true true false) /\
    Player.is_rolling pf = true /\
    0 < Player.attack_timer pf.
Proof.
  unfold Player.update_started, Player.begin_frame, Player.actions,
    Player.try_roll, Player.try_light, Player.try_heavy, Player.tick_timers,
    Player.move, Entity.update_timers, Player.init, Entity.init,
    length_squared, roll_and_light.
  eval_frame.
  eexists; split; [reflexivity|].
  cbn -[Rmax]; split; [reflexivity | cmp_cases].
Qed.

(** ** Roll *)



(** ** Attacks *)

(** The attack blocks leave the roll state alone, and the roll block the
    attack cooldown. *)
Lemma try_roll_attack_cooldown (k : Input) (p : Player.t) :
  Player.attack_cooldown (fst (Player.try_roll k p)) = Player.attack_cooldown p.
Proof.
  destruct (try_roll_spec k p) as (_ & Hon & Hoff).
  destruct (snd (Player.try_roll k p)); [rewrite Hon | rewrite Hoff]; auto.
Qed.

Lemma try_roll_stamina (k : Input) (p : Player.t) :
  Player.stamina (fst (Player.try_roll k p)) =
  (if snd (Player.try_roll k p) then Player.stamina p - 20 else Player.stamina p).
Proof.
  destruct (try_roll_spec k p) as (_ & Hon & Hoff).
  destruct (snd (Player.try_roll k p)); [rewrite Hon | rewrite Hoff]; auto.
Qed.

(** A light attack that starts closes the gate of the heavy attack. *)
Lemma light_blocks_heavy (k : Input) (p : Player.t) :
  snd (Player.try_light k p) = true ->
  snd (Player.try_heavy k (fst (Player.try_light k p))) = false.
Proof.
  intros Hl.
  destruct (try_light_spec k p) as (_ & Hon & _).
  destruct (try_heavy_spec k (fst (Player.try_light k p))) as (Hiff & _).
  destruct (snd (Player.try_heavy k _)); [|reflexivity].
  destruct (proj1 Hiff eq_refl) as (_ & Hc & _).
  rewrite (Hon Hl) in Hc; cbn in Hc; unfold ATTACK_COOLDOWN in Hc; lra.
Qed.



(** ** Roll and attack in one frame *)

(** C3, amended.  The roll block and the attack blocks of a frame are gated
    independently, each by its own cooldown, input and stamina check, the
    attack blocks seeing the stamina left by the roll.  With [p1] the
    player at the roll attempt: a roll and a light attack both start
    exactly when both inputs are pressed, both cooldowns are [<= 0] and the
    stamina is at least 32; a roll and a heavy attack both start exactly
    when both inputs are pressed, the light input is not, both cooldowns
    are [<= 0] and the stamina is at least 48.  The light and the heavy
    attack never both start. *)
Theorem roll_and_attack_same_frame (dt : R) (k : Input) (p : Player.t) :
  exists p1 mv pf s,
    Player.begin_frame dt k p = Some (p1, mv) /\
    Player.update_started dt k p = Some (pf, s) /\
    Player.roll_cooldown p1 = Player.roll_cooldown p /\
    Player.attack_cooldown p1 = Player.attack_cooldown p /\
    Player.stamina p1 =
      (if Player.is_rolling p then Player.stamina p
       else clamp (Player.stamina p + STAMINA_RECOVERY_RATE * dt) 0 STAMINA_MAX) /\
    ~ (Player.light_started s = true /\ Player.heavy_started s = true) /\
    ((Player.roll_started s = true /\ Player.light_started s = true) <->
     (K_SPACE k || mouse2 k = true) /\ Player.roll_cooldown p1 <= 0 /\
     (K_j k || mouse0 k = true) /\ Player.attack_cooldown p1 <= 0 /\
     32 <= Player.stamina p1) /\
    ((Player.roll_started s = true /\ Player.heavy_started s = true) <->
     (K_SPACE k || mouse2 k = true) /\ Player.roll_cooldown p1 <= 0 /\
     K_k k = true /\ (K_j k || mouse0 k = false) /\
     Player.attack_cooldown p1 <= 0 /\ 48 <= Player.stamina p1).
Proof.
  destruct (update_started_spec dt k p)
    as (p1 & mv & Hb & Hu & _ & Hst & _ & Hac & _ & Hrc & _).
  exists p1, mv; do 2 eexists; split; [exact Hb|]; split; [exact Hu|].
  split; [exact Hrc|]; split; [exact Hac|]; split; [exact Hst|].
  rewrite actions_unfold;
    cbn [snd Player.roll_started Player.light_started Player.heavy_started].
  set (pre := fst (Player.try_roll k p1)).
  pose proof (try_roll_stamina k p1) as Hpst.
  pose proof (try_roll_attack_cooldown k p1) as Hpac.
  fold pre in Hpst, Hpac.
  destruct (try_roll_spec k p1) as (Hr & _).
  destruct (try_light_spec k pre) as (Hl & _ & Hloff).
  destruct (try_heavy_spec k (fst (Player.try_light k pre))) as (Hh & _).
  pose proof (light_blocks_heavy k pre) as Hblock.
  unfold LIGHT_ATTACK_COST, HEAVY_ATTACK_COST in *.
  split; [|split].
  - intros [Hls Hhs]; rewrite (Hblock Hls) in Hhs; discriminate.
  - split.
    + intros [Hrs Hls]; rewrite Hrs in Hpst.
      apply Hr in Hrs; apply Hl in Hls.
      rewrite Hpst, Hpac in Hls; intuition lra.
    + intros (Hk & Hc & Hj & Hca & Hs).
      assert (Hrs : snd (Player.try_roll k p1) = true) by (apply Hr; intuition lra).
      rewrite Hrs in Hpst; split; [exact Hrs|].
      apply Hl; rewrite Hpst, Hpac; intuition lra.
  - split.
    + intros [Hrs Hhs]; rewrite Hrs in Hpst.
      destruct (snd (Player.try_light k pre)) eqn:Hls.
      { rewrite (Hblock eq_refl) in Hhs; discriminate. }
      rewrite (Hloff eq_refl) in Hh, Hhs.
      apply Hr in Hrs; apply Hh in Hhs.
      rewrite Hpst, Hpac in Hhs.
      destruct (K_j k || mouse0 k) eqn:Hj.
      { assert (false = true) by (apply Hl; rewrite Hpst, Hpac; intuition lra).
        discriminate. }
      intuition lra.
    + intros (Hk & Hc & Hkk & Hj & Hca & Hs).
      assert (Hrs : snd (Player.try_roll k p1) = true) by (apply Hr; intuition lra).
      rewrite Hrs in Hpst; split; [exact Hrs|].
      destruct (snd (Player.try_light k pre)) eqn:Hls.
      { destruct (proj1 Hl eq_refl) as (Hj' & _); congruence. }
      rewrite (Hloff eq_refl) in Hh |- *.
      apply Hh; rewrite Hpst, Hpac; intuition lra.
Qed.

Lemma roll_and_attack_same_frame_witness :
  exists pf s,
    Player.update_started 0.01 roll_and_light (Player.init (960, 540))
      = Some (pf, s) /\
    Player.roll_started s = true /\ Player.light_started s = true /\
    Player.heavy_started s = false.
Proof.
  destruct (roll_and_attack_same_frame 0.01 roll_and_light (Player.init (960, 540)))
    as (p1 & mv & pf & s & Hb & Hu & Hrc & Hac & Hst & Hex & Hrl & _).
  assert (Hboth : Player.roll_started s = true /\ Player.light_started s = true).
  { apply Hrl; rewrite Hrc, Hac, Hst; cbn; repeat split; cmp_cases. }
  exists pf, s; destruct Hboth as [Hr Hl]; repeat split; auto.
  destruct (Player.heavy_started s); [exfalso; apply Hex; auto | reflexivity].
Defined.

(** ** Stamina *)

Lemma try_light_stamina (k : Input) (p : Player.t) :
  Player.stamina (fst (Player.try_light k p)) =
  (if snd (Player.try_light k p) then Player.stamina p - LIGHT_ATTACK_COST
   else Player.stamina p).
Proof.
  destruct (try_light_spec k p) as (_ & Hon & Hoff).
  destruct (snd (Player.try_light k p)); [rewrite Hon | rewrite Hoff]; auto.
Qed.

Lemma try_heavy_stamina (k : Input) (p : Player.t) :
  Player.stamina (fst (Player.try_heavy k p)) =
  (if snd (Player.try_heavy k p) then Player.stamina p - HEAVY_ATTACK_COST
   else Player.stamina p).
Proof.
  destruct (try_heavy_spec k p) as (_ & Hon & Hoff).
  destruct (snd (Player.try_heavy k p)); [rewrite Hon | rewrite Hoff]; auto.
Qed.

(** Case analysis on every test of the goal. *)
Ltac split_ifs :=
  repeat match goal with
    | |- context [if ?c then _ else _] => destruct c eqn:?
    end.

Lemma tick_timers_stamina (dt : R) (p : Player.t) :
  Player.stamina (Player.tick_timers dt p) = Player.stamina p.
Proof. unfold Player.tick_timers; split_ifs; reflexivity. Qed.

Lemma move_stamina (dt : R) (mv : Vector2) (a : bool) (p : Player.t) :
  Player.stamina (Player.move dt mv a p) = Player.stamina p.
Proof. unfold Player.move; split_ifs; reflexivity. Qed.

(** The stamina along the blocks of one frame: the regeneration is clamped
    to [0, STAMINA_MAX], every debit is gated by its cost, and the
    countdowns and the movement do not touch the stamina. *)
Lemma frame_stamina (dt : R) (k : Input) (p : Player.t) :
  0 <= Player.stamina p <= STAMINA_MAX ->
  exists p1 mv pf,
    Player.begin_frame dt k p = Some (p1, mv) /\
    Player.update dt k p = Some pf /\
    let r := Player.try_roll k p1 in
    let l := Player.try_light k (fst r) in
    let h := Player.try_heavy k (fst l) in
    0 <= Player.stamina p1 <= STAMINA_MAX /\
    (snd r = true -> 20 <= Player.stamina p1) /\
    Player.stamina (fst r) =
      (if snd r then Player.stamina p1 - 20 else Player.stamina p1) /\
    0 <= Player.stamina (fst r) <= STAMINA_MAX /\
    (snd l = true -> LIGHT_ATTACK_COST <= Player.stamina (fst r)) /\
    Player.stamina (fst l) =
      (if snd l then Player.stamina (fst r) - LIGHT_ATTACK_COST
       else Player.stamina (fst r)) /\
    0 <= Player.stamina (fst l) <= STAMINA_MAX /\
    (snd h = true -> HEAVY_ATTACK_COST <= Player.stamina (fst l)) /\
    Player.stamina (fst h) =
      (if snd h then Player.stamina (fst l) - HEAVY_ATTACK_COST
       else Player.stamina (fst l)) /\
    0 <= Player.stamina (fst h) <= STAMINA_MAX /\
    Player.stamina pf = Player.stamina (fst h).
Proof.
  intros Hp.
  destruct (update_started_spec dt k p)
    as (p1 & mv & Hb & Hu & _ & Hst & _).
  exists p1, mv; eexists; split; [exact Hb|].
  split; [unfold Player.update; rewrite Hu; reflexivity|].
  rewrite move_stamina, tick_timers_stamina, actions_unfold; cbn [fst].
  cbn zeta.
  set (r := Player.try_roll k p1).
  set (l := Player.try_light k (fst r)).
  set (h := Player.try_heavy k (fst l)).
  assert (H1 : 0 <= Player.stamina p1 <= STAMINA_MAX).
  { rewrite Hst; destruct (Player.is_rolling p); [exact Hp|].
    apply clamp_bounds; unfold STAMINA_MAX; lra. }
  pose proof (proj1 (proj1 (try_roll_spec k p1))) as Hr.
  pose proof (proj1 (proj1 (try_light_spec k (fst r)))) as Hl.
  pose proof (proj1 (proj1 (try_heavy_spec k (fst l)))) as Hh.
  pose proof (try_roll_stamina k p1) as Sr.
  pose proof (try_light_stamina k (fst r)) as Sl.
  pose proof (try_heavy_stamina k (fst l)) as Sh.
  fold r in Hr, Sr; fold l in Hl, Sl; fold h in Hh, Sh.
  unfold LIGHT_ATTACK_COST, HEAVY_ATTACK_COST, STAMINA_MAX in *.
  assert (H2 : 0 <= Player.stamina (fst r) <= 100).
  { rewrite Sr; destruct (snd r); [specialize (Hr eq_refl)|]; lra. }
  assert (H3 : 0 <= Player.stamina (fst l) <= 100).
  { rewrite Sl; destruct (snd l); [specialize (Hl eq_refl)|]; lra. }
  assert (H4 : 0 <= Player.stamina (fst h) <= 100).
  { rewrite Sh; destruct (snd h); [specialize (Hh eq_refl)|]; lra. }
  repeat split; try tauto; try lra; intros Hs;
    first [apply Hr in Hs; lra | apply Hl in Hs; lra | apply Hh in Hs; lra].
Qed.

(** C4.  Over every sequence of frames, with any inputs and any [dt], the
    player's stamina stays within [0, 100] ([update] never raises); within
    a frame the regeneration is clamped to the maximum and each debit
    (roll 20, light attack 12, heavy attack 28) happens only when the
    stamina at that point is at least the cost. *)
Theorem stamina_bounds (fs : list (R * Input)) (p : Player.t) :
  0 <= Player.stamina p <= 100 ->
  (exists p', run_player fs p = Some p' /\ 0 <= Player.stamina p' <= 100) /\
  (forall dt k, exists p1 mv pf,
     Player.begin_frame dt k p = Some (p1, mv) /\
     Player.update dt k p = Some pf /\
     let r := Player.try_roll k p1 in
     let l := Player.try_light k (fst r) in
     let h := Player.try_heavy k (fst l) in
     0 <= Player.stamina p1 <= 100 /\
     (snd r = true -> 20 <= Player.stamina p1) /\
     Player.stamina (fst r) =
       (if snd r then Player.stamina p1 - 20 else Player.stamina p1) /\
     0 <= Player.stamina (fst r) <= 100 /\
     (snd l = true -> 12 <= Player.stamina (fst r)) /\
     Player.stamina (fst l) =
       (if snd l then Player.stamina (fst r) - 12 else Player.stamina (fst r)) /\
     0 <= Player.stamina (fst l) <= 100 /\
     (snd h = true -> 28 <= Player.stamina (fst l)) /\
     Player.stamina (fst h) =
       (if snd h then Player.stamina (fst l) - 28 else Player.stamina (fst l)) /\
     0 <= Player.stamina (fst h) <= 100 /\
     Player.stamina pf = Player.stamina (fst h)).
Proof.
  intros Hp; split.
  - revert p Hp; induction fs as [|[dt k] fs IH]; intros p Hp.
    + exists p; split; [reflexivity | exact Hp].
    + destruct (frame_stamina dt k p Hp)
        as (p1 & mv & pf & _ & Hu & _ & _ & _ & _ & _ & _ & _ & _ & _ & Hh & Hpf).
      cbn [run_player]; rewrite Hu; cbn [bind].
      apply IH; rewrite Hpf; exact Hh.
  - intros dt k; exact (frame_stamina dt k p Hp).
Qed.

Lemma stamina_bounds_witness :
  exists p',
    run_player [(0.01, roll_and_light); (0.01, light_and_heavy); (0.5, no_input)]
      (Player.init (960, 540)) = Some p' /\
    0 <= Player.stamina p' <= 100.
Proof.
  apply (stamina_bounds
           [(0.01, roll_and_light); (0.01, light_and_heavy); (0.5, no_input)]
           (Player.init (960, 540))).
  cbn; unfold STAMINA_MAX; lra.
Defined.

(** ** Countdowns *)

(** The guarded countdown the code writes out at every timer:
    [if t > 0: t = max(0, t - dt)]. *)
Lemma guarded_countdown (t dt : R) :
  0 <= t -> 0 <= dt ->
  (if gtb t 0 then Rmax 0 (t - dt) else t) = advance t dt.
Proof. intros; cmp_cases. Qed.

(** Case analysis on the tests of the goal, innermost first. *)
Ltac split_ifs_in_order :=
  repeat (cbn -[Rmax Rmin];
          match goal with
          | |- context [if ?c then _ else _] =>
              lazymatch c with
              | context [if _ then _ else _] => fail
              | _ => destruct c eqn:?
              end
          end);
  cbn -[Rmax Rmin].

Lemma tick_timers_fields (dt : R) (p : Player.t) :
  let p' := Player.tick_timers dt p in
  Player.attack_timer p' =
    (if gtb (Player.attack_timer p) 0
     then Rmax 0 (Player.attack_timer p - dt) else Player.attack_timer p) /\
  Player.attack_cooldown p' =
    (if gtb (Player.attack_cooldown p) 0
     then Rmax 0 (Player.attack_cooldown p - dt) else Player.attack_cooldown p) /\
  Player.roll_timer p' =
    (if gtb (Player.roll_timer p) 0
     then Rmax 0 (Player.roll_timer p - dt) else Player.roll_timer p) /\
  Player.roll_cooldown p' =
    (if gtb (Player.roll_cooldown p) 0
     then Rmax 0 (Player.roll_cooldown p - dt) else Player.roll_cooldown p) /\
  Player.invuln_timer p' = Player.invuln_timer p /\
  Player.facing p' = Player.facing p /\
  Player.is_rolling p' =
    (if gtb (Player.roll_timer p) 0 && eqb (Rmax 0 (Player.roll_timer p - dt)) 0
     then false else Player.is_rolling p) /\
  vitals (Player.base p') = vitals (Player.base p).
Proof.
  destruct p as [b st at_ ac rt rc f rolling].
  unfold Player.tick_timers; split_ifs_in_order;
    repeat split; reflexivity || congruence.
Qed.

Lemma move_fields (dt : R) (mv : Vector2) (a : bool) (p : Player.t) :
  let p' := Player.move dt mv a p in
  Player.attack_timer p' = Player.attack_timer p /\
  Player.attack_cooldown p' = Player.attack_cooldown p /\
  Player.roll_timer p' = Player.roll_timer p /\
  Player.roll_cooldown p' = Player.roll_cooldown p /\
  Player.invuln_timer p' = Player.invuln_timer p /\
  Player.facing p' = Player.facing p /\
  Player.is_rolling p' = Player.is_rolling p /\
  vitals (Player.base p') = vitals (Player.base p).
Proof.
  destruct p as [b st at_ ac rt rc f rolling].
  unfold Player.move; split_ifs_in_order; repeat split; reflexivity.
Qed.

(** The timers after the action blocks of a frame. *)
Lemma actions_fields (k : Input) (p : Player.t) :
  let s := snd (Player.actions k p) in
  let p' := fst (Player.actions k p) in
  Player.attack_timer p' =
    (if Player.light_started s then 0.18
     else if Player.heavy_started s then 0.34 else Player.attack_timer p) /\
  Player.attack_cooldown p' =
    (if Player.light_started s then ATTACK_COOLDOWN
     else if Player.heavy_started s then HEAVY_ATTACK_COOLDOWN
     else Player.attack_cooldown p) /\
  Player.roll_timer p' =
    (if Player.roll_started s then 0.26 else Player.roll_timer p) /\
  Player.roll_cooldown p' =
    (if Player.roll_started s then ROLL_COOLDOWN else Player.roll_cooldown p) /\
  Player.invuln_timer p' =
    (if Player.roll_started s then INVULN_TIME else Player.invuln_timer p).
Proof.
  rewrite actions_unfold;
    cbn [fst snd Player.roll_started Player.light_started Player.heavy_started].
  destruct (try_roll_spec k p) as (_ & Hr1 & Hr0).
  set (pre := fst (Player.try_roll k p)) in *.
  destruct (try_light_spec k pre) as (_ & Hl1 & Hl0).
  set (mid := fst (Player.try_light k pre)) in *.
  destruct (try_heavy_spec k mid) as (_ & Hh1 & Hh0).
  pose proof (light_blocks_heavy k pre) as Hblock; fold mid in Hblock.
  destruct (snd (Player.try_heavy k mid)) eqn:Hh;
    [rewrite (Hh1 eq_refl) | rewrite (Hh0 eq_refl)];
    (destruct (snd (Player.try_light k pre)) eqn:Hl;
     [try (specialize (Hblock eq_refl); discriminate); rewrite (Hl1 eq_refl)
     | rewrite (Hl0 eq_refl)]);
    (destruct (snd (Player.try_roll k p)) eqn:Hr;
     [rewrite (Hr1 eq_refl) | rewrite (Hr0 eq_refl)]);
    cbn; repeat split; reflexivity.
Qed.

Lemma update_timers_fields (dt : R) (e : Entity.t) :
  let e' := Entity.update_timers dt e in
  Entity.pos e' = Entity.pos e /\ Entity.vel e' = Entity.vel e /\
  Entity.radius e' = Entity.radius e /\ Entity.hp e' = Entity.hp e /\
  Entity.max_hp e' = Entity.max_hp e /\ Entity.alive e' = Entity.alive e /\
  Entity.invuln_timer e' =
    (if gtb (Entity.invuln_timer e) 0
     then Rmax 0 (Entity.invuln_timer e - dt) else Entity.invuln_timer e).
Proof.
  unfold Entity.update_timers.
  destruct (gtb (Entity.invuln_timer e) 0); cbn; repeat split; reflexivity.
Qed.

(** ** The enemy *)

Lemma length_pos_inv (v : Vector2) : 0 < length v -> 0 < length_squared v.
Proof.
  intros Hl.
  destruct (Rle_lt_dec (length_squared v) 0) as [Hz | Hpos]; [|exact Hpos].
  unfold length in Hl; rewrite (sqrt_neg_0 _ Hz) in Hl; lra.
Qed.

(** The branch of a dead enemy: the respawn timer has its own rule. *)
Lemma update_dead_spec (dt : R) (rnd : Enemy.Rnd) (e : Enemy.t) :
  let e' := Enemy.update_dead dt rnd e in
  Enemy.attack_cooldown e' = Enemy.attack_cooldown e /\
  Enemy.respawn_time e' =
    (if leb (Enemy.respawn_time e) 0 then Enemy.respawn_delay rnd
     else Enemy.respawn_time e - dt) /\
  Enemy.radius e' = Enemy.radius e /\
  Enemy.max_hp e' = Enemy.max_hp e /\
  Enemy.invuln_timer e' = Enemy.invuln_timer e /\
  Enemy.alive e' =
    (if leb (Enemy.respawn_time e) 0 then Enemy.alive e
     else if leb (Enemy.respawn_time e - dt) 0 then true else Enemy.alive e) /\
  Enemy.hp e' =
    (if leb (Enemy.respawn_time e) 0 then Enemy.hp e
     else if leb (Enemy.respawn_time e - dt) 0 then Enemy.max_hp e
     else Enemy.hp e).
Proof.
  destruct e as [b cd sp rt]; unfold Enemy.update_dead; cbn.
  destruct (leb rt 0); cbn; [repeat split; reflexivity|].
  destruct (leb (rt - dt) 0); cbn; repeat split; reflexivity.
Qed.

(** The wandering branch touches position and velocity only. *)
Lemma update_far_spec (dt : R) (rnd : Enemy.Rnd) (e : Enemy.t) :
  let e' := Enemy.update_far dt rnd e in
  Enemy.attack_cooldown e' = Enemy.attack_cooldown e /\
  Enemy.respawn_time e' = Enemy.respawn_time e /\
  vitals (Enemy.base e') = vitals (Enemy.base e).
Proof.
  destruct e as [b cd sp rt]; unfold Enemy.update_far; cbn.
  destruct (ltb (Enemy.wander_roll rnd) 0.01); cbn; repeat split; reflexivity.
Qed.

(** The branch of an enemy that sees the player does not raise when the
    reach is not negative; the attack cooldown is reset by a strike and
    then counted down. *)
Lemma update_near_spec (dt : R) (to_player : Vector2) (pl : Player.t)
    (e : Enemy.t) :
  0 <= Enemy.radius e + Player.radius pl + 6 ->
  exists e',
    Enemy.update_near dt to_player (length to_player) pl e
    = Some (e', if strikes (length to_player) pl e
                then snd (Player.take_damage pl ENEMY_DAMAGE) else pl) /\
    Enemy.attack_cooldown e' =
      (let c := if strikes (length to_player) pl e then 1.0
                else Enemy.attack_cooldown e in
       if gtb c 0 then Rmax 0 (c - dt) else c) /\
    Enemy.respawn_time e' = Enemy.respawn_time e /\
    vitals (Enemy.base e') = vitals (Enemy.base e).
Proof.
  intros Hreach.
  destruct e as [b cd sp rt]; unfold Enemy.update_near, strikes; cbn in *.
  destruct (gtb (length to_player) _) eqn:Hfar.
  - apply gtb_true in Hfar.
    destruct (normalize_nonzero to_player) as (n & Hn & _).
    { apply length_pos_inv; unfold Enemy.radius in *; cbn in *; lra. }
    rewrite Hn; cbn.
    destruct (gtb cd 0); eexists; repeat split; reflexivity.
  - cbn [negb andb].
    destruct (leb cd 0 && leb (Player.invuln_timer pl) 0); cbn;
      match goal with |- context [gtb ?c 0] => destruct (gtb c 0) end;
      eexists; repeat split; reflexivity.
Qed.

(** [Enemy.update] does not raise when the reach is not negative, and this
    is what it does to the timers, to [hp] and [alive], and to the
    player. *)
Lemma enemy_update_spec (dt : R) (rnd : Enemy.Rnd) (pl : Player.t)
    (e : Enemy.t) :
  0 <= Enemy.radius e + Player.radius pl + 6 ->
  exists e' pl',
    Enemy.update dt rnd pl e = Some (e', pl') /\
    Enemy.radius e' = Enemy.radius e /\
    Enemy.max_hp e' = Enemy.max_hp e /\
    Enemy.invuln_timer e' =
      (if gtb (Enemy.invuln_timer e) 0
       then Rmax 0 (Enemy.invuln_timer e - dt) else Enemy.invuln_timer e) /\
    (Enemy.alive e = false ->
     pl' = pl /\
     Enemy.attack_cooldown e' = Enemy.attack_cooldown e /\
     Enemy.respawn_time e' =
       (if leb (Enemy.respawn_time e) 0 then Enemy.respawn_delay rnd
        else Enemy.respawn_time e - dt) /\
     Enemy.alive e' =
       (if leb (Enemy.respawn_time e) 0 then false
        else leb (Enemy.respawn_time e - dt) 0) /\
     Enemy.hp e' =
       (if leb (Enemy.respawn_time e) 0 then Enemy.hp e
        else if leb (Enemy.respawn_time e - dt) 0 then Enemy.max_hp e
        else Enemy.hp e)) /\
    (Enemy.alive e = true ->
     let dist := length (vsub (Player.pos pl) (Enemy.pos e)) in
     Enemy.alive e' = true /\ Enemy.hp e' = Enemy.hp e /\
     Enemy.respawn_time e' = Enemy.respawn_time e /\
     (dist < 300 ->
      pl' = (if strikes dist pl e
             then snd (Player.take_damage pl ENEMY_DAMAGE) else pl) /\
      Enemy.attack_cooldown e' =
        (let c := if strikes dist pl e then 1.0 else Enemy.attack_cooldown e in
         if gtb c 0 then Rmax 0 (c - dt) else c)) /\
     (300 <= dist ->
      pl' = pl /\ Enemy.attack_cooldown e' = Enemy.attack_cooldown e)).
Proof.
  intros Hreach.
  pose proof (update_timers_fields dt (Enemy.base e))
    as (Tp & Tv & Tr & Th & Tm & Ta & Ti).
  unfold Enemy.update.
  set (e0 := Enemy.set_base e (Entity.update_timers dt (Enemy.base e))).
  assert (E0 : Enemy.pos e0 = Enemy.pos e /\ Enemy.radius e0 = Enemy.radius e /\
               Enemy.hp e0 = Enemy.hp e /\ Enemy.max_hp e0 = Enemy.max_hp e /\
               Enemy.alive e0 = Enemy.alive e /\
               Enemy.attack_cooldown e0 = Enemy.attack_cooldown e /\
               Enemy.respawn_time e0 = Enemy.respawn_time e /\
               Enemy.invuln_timer e0 =
                 (if gtb (Enemy.invuln_timer e) 0
                  then Rmax 0 (Enemy.invuln_timer e - dt)
                  else Enemy.invuln_timer e)).
  { unfold e0, Enemy.pos, Enemy.radius, Enemy.hp, Enemy.max_hp, Enemy.alive,
      Enemy.invuln_timer; cbn; repeat split; assumption. }
  clearbody e0.
  destruct E0 as (Ep & Er & Eh & Em & Ea & Ec & Et & Ei).
  destruct (Enemy.alive e0) eqn:Halive; cbn [negb].
  - (* alive *)
    set (dist := length (vsub (Player.pos pl) (Enemy.pos e0))).
    assert (Hs : forall d, strikes d pl e0 = strikes d pl e).
    { intros d; unfold strikes; now rewrite Er, Ec. }
    destruct (ltb dist 300) eqn:Hnear.
    + destruct (update_near_spec dt (vsub (Player.pos pl) (Enemy.pos e0)) pl e0)
        as (e1 & Hu & Hc & Ht & Hv).
      { rewrite Er; exact Hreach. }
      fold dist in Hu, Hc; rewrite Hu; cbn [bind].
      unfold vitals in Hv; injection Hv as Hvr Hvh Hvm Hva Hvi.
      do 2 eexists; split; [reflexivity|].
      unfold Enemy.radius, Enemy.max_hp, Enemy.invuln_timer, Enemy.alive,
        Enemy.hp in *; cbn.
      rewrite Hvr, Hvm, Hvi, Hva, Hvh, Hc, Ht, Hs, Ec.
      rewrite <- Ep; fold dist.
      apply ltb_true in Hnear.
      repeat split; try congruence; try lra.
    + assert (Hge : 300 <= dist) by (now apply gtb_false in Hnear).
      pose proof (update_far_spec dt rnd e0) as Hfar; cbn zeta in Hfar.
      remember (Enemy.update_far dt rnd e0) as e1 eqn:He1; clear He1.
      destruct Hfar as (Hc & Ht & Hv).
      cbn [bind].
      unfold vitals in Hv; injection Hv as Hvr Hvh Hvm Hva Hvi.
      do 2 eexists; split; [reflexivity|].
      unfold Enemy.radius, Enemy.max_hp, Enemy.invuln_timer, Enemy.alive,
        Enemy.hp in *; cbn.
      rewrite Hvr, Hvm, Hvi, Hva, Hvh, Hc, Ht.
      rewrite <- Ep; fold dist.
      repeat split; try congruence; try lra.
  - (* dead *)
    destruct (update_dead_spec dt rnd e0) as (Hc & Ht & Hr & Hm & Hi & Ha & Hh).
    do 2 eexists; split; [reflexivity|].
    rewrite Hr, Hm, Hi, Hc, Ht, Ha, Hh, Et, Halive, Eh, Em.
    repeat split; try congruence.
    destruct (leb (Enemy.respawn_time e) 0); [reflexivity|].
    destruct (leb (Enemy.respawn_time e - dt) 0); reflexivity.
Qed.

(** ** The countdown rules, frame by frame *)

(** The countdowns of the player over one frame of [update]: each timer is
    first set by the action that starts in the frame, if any, and then
    advanced; the invulnerability timer is advanced at the beginning of the
    frame and then set by a starting roll. *)
Lemma player_frame_timers (dt : R) (k : Input) (p : Player.t) :
  0 <= dt ->
  0 <= Player.attack_timer p -> 0 <= Player.attack_cooldown p ->
  0 <= Player.roll_timer p -> 0 <= Player.roll_cooldown p ->
  0 <= Player.invuln_timer p ->
  exists pf s,
    Player.update_started dt k p = Some (pf, s) /\
    Player.attack_timer pf =
      advance (if Player.light_started s then 0.18
               else if Player.heavy_started s then 0.34
               else Player.attack_timer p) dt /\
    Player.attack_cooldown pf =
      advance (if Player.light_started s then 0.45
               else if Player.heavy_started s then 1.0
               else Player.attack_cooldown p) dt /\
    Player.roll_timer pf =
      advance (if Player.roll_started s then 0.26 else Player.roll_timer p) dt /\
    Player.roll_cooldown pf =
      advance (if Player.roll_started s then 0.8 else Player.roll_cooldown p) dt /\
    Player.invuln_timer pf =
      (if Player.roll_started s then 0.28
       else advance (Player.invuln_timer p) dt).
Proof.
  intros Hdt Hat Hac Hrt Hrc Hiv.
  destruct (update_started_spec dt k p)
    as (p1 & mv & _ & Hu & Hbase & _ & Eat & Eac & Ert & Erc & _).
  do 2 eexists; split; [exact Hu|].
  destruct (move_fields dt mv (Player.attacking (snd (Player.actions k p1)))
              (Player.tick_timers dt (fst (Player.actions k p1))))
    as (M1 & M2 & M3 & M4 & M5 & _).
  destruct (tick_timers_fields dt (fst (Player.actions k p1)))
    as (T1 & T2 & T3 & T4 & T5 & _).
  destruct (actions_fields k p1) as (A1 & A2 & A3 & A4 & A5).
  cbn zeta in *.
  rewrite M1, M2, M3, M4, M5, T1, T2, T3, T4, T5, A1, A2, A3, A4, A5.
  rewrite Eat, Eac, Ert, Erc.
  assert (Ei : Player.invuln_timer p1 = advance (Player.invuln_timer p) dt).
  { unfold Player.invuln_timer in *; rewrite Hbase.
    destruct (update_timers_fields dt (Player.base p)) as (_ & _ & _ & _ & _ & _ & Ti).
    cbn zeta in Ti; rewrite Ti; now apply guarded_countdown. }
  rewrite Ei.
  unfold ATTACK_COOLDOWN, HEAVY_ATTACK_COOLDOWN, ROLL_COOLDOWN, INVULN_TIME.
  generalize (snd (Player.actions k p1)); intros [r l h]; cbn.
  destruct r, l, h;
    repeat split; try reflexivity; apply guarded_countdown; lra.
Qed.

(** C9, as stated, fails: the respawn timer of a dead enemy is decremented
    without the clamp.  With 0.005 s left and a frame of 0.01 s the timer
    ends at -0.005, where the uniform rule gives 0. *)
Lemma respawn_timer_counterexample :
  let e := Enemy.mk (Entity.mk (500, 500) (0, 0) 16 (-4) 80 false 0) 0 100 0.005 in
  let pl := Player.init (960, 540) in
  exists e',
    Enemy.update 0.01 (Enemy.mkRnd 3 0.5 0.5) pl e = Some (e', pl) /\
    Enemy.respawn_time e' = 0.005 - 0.01 /\
    advance (Enemy.respawn_time e) 0.01 = 0 /\
    Enemy.respawn_time e' <> advance (Enemy.respawn_time e) 0.01.
Proof.
  cbn zeta.
  unfold Enemy.update, Entity.update_timers, Enemy.update_dead.
  eval_frame.
  eexists; split; [reflexivity|]; cbn -[Rmax].
  repeat split; cmp_cases.
Qed.

(** C9, amended.  For [dt >= 0] and timers that are not negative: the
    entity invulnerability timer and the player's attack timer, attack
    cooldown, roll timer and roll cooldown are advanced in every frame by
    [advance(timer, dt) = max(0, timer - dt)] (applied to the value an
    action starting in the frame has just set, if any; a starting roll sets
    the player's invulnerability timer after it was advanced).  The enemy
    attack cooldown is advanced by that rule only in the frames in which
    the enemy is alive and nearer than 300 to the player, and keeps its
    value in the others.  The enemy respawn timer has its own rule: in the
    frames of a dead enemy it is drawn anew when it is [<= 0] and otherwise
    becomes [timer - dt], without the clamp. *)
Theorem countdown_rules (dt : R) :
  0 <= dt ->
  (forall e, 0 <= Entity.invuln_timer e ->
     Entity.invuln_timer (Entity.update_timers dt e)
     = advance (Entity.invuln_timer e) dt) /\
  (forall k p,
     0 <= Player.attack_timer p -> 0 <= Player.attack_cooldown p ->
     0 <= Player.roll_timer p -> 0 <= Player.roll_cooldown p ->
     0 <= Player.invuln_timer p ->
     exists pf s,
       Player.update_started dt k p = Some (pf, s) /\
       Player.attack_timer pf =
         advance (if Player.light_started s then 0.18
                  else if Player.heavy_started s then 0.34
                  else Player.attack_timer p) dt /\
       Player.attack_cooldown pf =
         advance (if Player.light_started s then 0.45
                  else if Player.heavy_started s then 1.0
                  else Player.attack_cooldown p) dt /\
       Player.roll_timer pf =
         advance (if Player.roll_started s then 0.26 else Player.roll_timer p) dt /\
       Player.roll_cooldown pf =
         advance (if Player.roll_started s then 0.8
                  else Player.roll_cooldown p) dt /\
       Player.invuln_timer pf =
         (if Player.roll_started s then 0.28
          else advance (Player.invuln_timer p) dt)) /\
  (forall rnd pl e,
     0 <= Enemy.invuln_timer e -> 0 <= Enemy.attack_cooldown e ->
     0 <= Enemy.radius e + Player.radius pl + 6 ->
     exists e' pl',
       Enemy.update dt rnd pl e = Some (e', pl') /\
       Enemy.invuln_timer e' = advance (Enemy.invuln_timer e) dt /\
       (Enemy.alive e = true ->
        let dist := length (vsub (Player.pos pl) (Enemy.pos e)) in
        (dist < 300 ->
         Enemy.attack_cooldown e' =
         advance (if strikes dist pl e then 1.0 else Enemy.attack_cooldown e) dt) /\
        (300 <= dist -> Enemy.attack_cooldown e' = Enemy.attack_cooldown e) /\
        Enemy.respawn_time e' = Enemy.respawn_time e) /\
       (Enemy.alive e = false ->
        Enemy.attack_cooldown e' = Enemy.attack_cooldown e /\
        Enemy.respawn_time e' =
          (if leb (Enemy.respawn_time e) 0 then Enemy.respawn_delay rnd
           else Enemy.respawn_time e - dt))).
Proof.
  intros Hdt; split; [|split].
  - intros e He.
    destruct (update_timers_fields dt e) as (_ & _ & _ & _ & _ & _ & Ti).
    cbn zeta in Ti; rewrite Ti; now apply guarded_countdown.
  - intros k p; now apply player_frame_timers.
  - intros rnd pl e Hi Hc Hreach.
    destruct (enemy_update_spec dt rnd pl e Hreach)
      as (e' & pl' & Hu & _ & _ & Ei & Hdead & Halive).
    exists e', pl'; split; [exact Hu|].
    split; [rewrite Ei; now apply guarded_countdown|].
    split.
    + intros Ha; destruct (Halive Ha) as (_ & _ & Ht & Hnear & Hfar).
      cbn zeta; split; [|split; [|exact Ht]].
      * intros Hd; destruct (Hnear Hd) as (_ & Hcd); rewrite Hcd; cbn zeta.
        apply guarded_countdown; [|exact Hdt].
        destruct (strikes _ pl e); lra.
      * intros Hd; now destruct (Hfar Hd).
    + intros Ha; destruct (Hdead Ha) as (_ & Hcd & Ht & _); now split.
Qed.

Lemma countdown_rules_witness :
  Entity.invuln_timer
    (Entity.update_timers 0.01 (Entity.mk (500, 500) (0, 0) 16 52 80 true 0.5))
  = advance 0.5 0.01 /\
  exists pf s,
    Player.update_started 0.01 roll_and_light (Player.init (960, 540))
      = Some (pf, s) /\
    Player.attack_timer pf =
      advance (if Player.light_started s then 0.18
               else if Player.heavy_started s then 0.34 else 0.0) 0.01.
Proof.
  assert (Hdt : 0 <= 0.01) by lra.
  destruct (countdown_rules 0.01 Hdt) as (He & Hp & _).
  split.
  - apply (He (Entity.mk (500, 500) (0, 0) 16 52 80 true 0.5)); cbn; lra.
  - destruct (Hp roll_and_light (Player.init (960, 540)))
      as (pf & s & Hu & Hat & _); try (cbn; lra).
    exists pf, s; split; [exact Hu | exact Hat].
Defined.

(** ** The range of [hp] over the frames of the simulation *)

Lemma entity_ok_ext (a b : Entity.t) :
  Entity.radius a = Entity.radius b -> Entity.hp a = Entity.hp b ->
  Entity.max_hp a = Entity.max_hp b -> Entity.alive a = Entity.alive b ->
  entity_ok b -> entity_ok a.
Proof.
  unfold entity_ok; intros -> -> -> ->; auto.
Qed.

Lemma vitals_ok (a b : Entity.t) :
  vitals a = vitals b -> entity_ok b -> entity_ok a.
Proof.
  unfold vitals; intros H; injection H as Hr Hh Hm Ha _.
  now apply entity_ok_ext.
Qed.

(** Damage of a non-negative amount keeps the range: [hp] only decreases,
    and [alive] is cleared when it reaches 0 or less. *)
Lemma take_damage_ok (e : Entity.t) (amount : R) :
  0 <= amount -> entity_ok e -> entity_ok (snd (Entity.take_damage e amount)).
Proof.
  intros Ha (Hr & Hm & Hh & Hal).
  destruct (Rlt_dec 0 (Entity.invuln_timer e)) as [Hi | Hi].
  { rewrite take_damage_rejected by (now left).
    cbn [snd]; repeat split; assumption. }
  destruct (Entity.alive e) eqn:Halive.
  2:{ rewrite take_damage_rejected by (now right).
      cbn [snd]; repeat split; auto; intros; congruence. }
  rewrite take_damage_applied by (lra || assumption).
  unfold entity_ok; cbn; repeat split; try assumption; try lra.
  destruct (leb (Entity.hp e - amount) 0) eqn:Hhp; cbn; [discriminate|].
  intros _; now apply leb_false in Hhp.
Qed.

(** The action blocks change the base of the player only in its velocity
    and invulnerability timer. *)
Lemma actions_base (k : Input) (p : Player.t) :
  let p' := fst (Player.actions k p) in
  Player.radius p' = Player.radius p /\ Player.hp p' = Player.hp p /\
  Player.max_hp p' = Player.max_hp p /\ Player.alive p' = Player.alive p /\
  Player.facing p' = Player.facing p.
Proof.
  rewrite actions_unfold; cbn [fst snd].
  destruct (try_roll_spec k p) as (_ & Hr1 & Hr0).
  set (pre := fst (Player.try_roll k p)) in *.
  destruct (try_light_spec k pre) as (_ & Hl1 & Hl0).
  set (mid := fst (Player.try_light k pre)) in *.
  destruct (try_heavy_spec k mid) as (_ & Hh1 & Hh0).
  destruct (snd (Player.try_heavy k mid));
    [rewrite (Hh1 eq_refl) | rewrite (Hh0 eq_refl)];
    (destruct (snd (Player.try_light k pre));
     [rewrite (Hl1 eq_refl) | rewrite (Hl0 eq_refl)]);
    (destruct (snd (Player.try_roll k p));
     [rewrite (Hr1 eq_refl) | rewrite (Hr0 eq_refl)]);
    cbn; repeat split; reflexivity.
Qed.

(** [Player.update] never raises and keeps the range of [hp] and the unit
    facing. *)
Lemma player_update_ok (dt : R) (k : Input) (p : Player.t) :
  player_ok p -> exists pf, Player.update dt k p = Some pf /\ player_ok pf.
Proof.
  intros [Hb Hf].
  destruct (update_started_spec dt k p)
    as (p1 & mv & _ & Hu & Hbase & _ & _ & _ & _ & _ & _ & Hfacing).
  eexists; split; [unfold Player.update; rewrite Hu; reflexivity|].
  destruct (move_fields dt mv (Player.attacking (snd (Player.actions k p1)))
              (Player.tick_timers dt (fst (Player.actions k p1))))
    as (_ & _ & _ & _ & _ & Mf & _ & Mv).
  destruct (tick_timers_fields dt (fst (Player.actions k p1)))
    as (_ & _ & _ & _ & _ & Tf & _ & Tv).
  destruct (actions_base k p1) as (Ar & Ah & Am & Aa & Af).
  destruct (update_timers_fields dt (Player.base p))
    as (_ & _ & Ur & Uh & Um & Ua & _).
  cbn zeta in *; split.
  - apply (vitals_ok _ _ Mv), (vitals_ok _ _ Tv).
    unfold Player.radius, Player.hp, Player.max_hp, Player.alive in *.
    rewrite Hbase in Ar, Ah, Am, Aa.
    apply (entity_ok_ext _ (Player.base p)); try congruence; assumption.
  - rewrite Mf, Tf, Af. destruct Hfacing as [-> | Hunit]; assumption.
Qed.

(** The unit facing is an invariant of [update]. *)
Lemma update_keeps_unit_facing (dt : R) (k : Input) (p : Player.t) :
  length_squared (Player.facing p) = 1 ->
  exists pf, Player.update dt k p = Some pf /\
             length_squared (Player.facing pf) = 1.
Proof.
  intros Hf.
  destruct (update_started_spec dt k p)
    as (p1 & mv & _ & Hu & _ & _ & _ & _ & _ & _ & _ & Hfacing).
  eexists; split; [unfold Player.update; rewrite Hu; reflexivity|].
  destruct (move_fields dt mv (Player.attacking (snd (Player.actions k p1)))
              (Player.tick_timers dt (fst (Player.actions k p1))))
    as (_ & _ & _ & _ & _ & Mf & _).
  destruct (tick_timers_fields dt (fst (Player.actions k p1)))
    as (_ & _ & _ & _ & _ & Tf & _).
  destruct (actions_base k p1) as (_ & _ & _ & _ & Af).
  cbn zeta in *; rewrite Mf, Tf, Af.
  destruct Hfacing as [-> | Hunit]; assumption.
Qed.

Lemma player_take_damage_ok (pl : Player.t) (amount : R) :
  0 <= amount -> player_ok pl -> player_ok (snd (Player.take_damage pl amount)).
Proof.
  intros Ha [Hb Hf]; unfold Player.take_damage.
  pose proof (take_damage_ok (Player.base pl) amount Ha Hb) as Hok.
  destruct (Entity.take_damage (Player.base pl) amount) as [applied b].
  split; [exact Hok | exact Hf].
Qed.

Lemma player_take_damage_radius (pl : Player.t) (amount : R) :
  Player.radius (snd (Player.take_damage pl amount)) = Player.radius pl.
Proof.
  unfold Player.take_damage, Player.radius, Entity.take_damage.
  split_ifs; reflexivity.
Qed.

(** [Enemy.update] never raises on entities of non-negative radius and
    keeps the range of [hp] of the enemy and of the player: a respawn
    resets [hp] to [max_hp], a strike is a [take_damage] of 12. *)
Lemma enemy_update_ok (dt : R) (rnd : Enemy.Rnd) (pl : Player.t)
    (e : Enemy.t) :
  player_ok pl -> entity_ok (Enemy.base e) ->
  exists e' pl',
    Enemy.update dt rnd pl e = Some (e', pl') /\
    entity_ok (Enemy.base e') /\ player_ok pl'.
Proof.
  intros Hpl He.
  pose proof Hpl as [(Hpr & _) _].
  pose proof He as (Hr & Hm & Hh & Hal).
  destruct (enemy_update_spec dt rnd pl e)
    as (e' & pl' & Hu & Er & Em & _ & Hdead & Halive).
  { unfold Enemy.radius, Player.radius; lra. }
  exists e', pl'; split; [exact Hu|].
  unfold Enemy.radius, Enemy.max_hp, Enemy.hp, Enemy.alive in *.
  destruct (Entity.alive (Enemy.base e)) eqn:Ha.
  - destruct (Halive eq_refl) as (Ea & Eh & _ & Hnear & Hfar).
    split.
    + apply (entity_ok_ext _ (Enemy.base e)); congruence.
    + destruct (Rlt_le_dec
                  (length (vsub (Player.pos pl) (Entity.pos (Enemy.base e)))) 300)
        as [Hd | Hd].
      * destruct (Hnear Hd) as (-> & _).
        destruct (strikes _ pl e); [|exact Hpl].
        apply player_take_damage_ok; [unfold ENEMY_DAMAGE; lra | exact Hpl].
      * destruct (Hfar Hd) as (-> & _); exact Hpl.
  - destruct (Hdead eq_refl) as (-> & _ & _ & Ea & Eh).
    split; [|exact Hpl].
    unfold entity_ok; rewrite Er, Em, Ea, Eh.
    destruct (leb (Enemy.respawn_time e) 0).
    + repeat split; auto; intros; discriminate.
    + destruct (leb (Enemy.respawn_time e - dt) 0);
        repeat split; auto; try lra; intros; discriminate.
Qed.

Lemma update_enemies_ok (dt : R) (rnd : nat -> Enemy.Rnd) (es : list Enemy.t) :
  forall (i : nat) (pl : Player.t),
    player_ok pl -> Forall (fun e => entity_ok (Enemy.base e)) es ->
    exists es' pl',
      update_enemies dt rnd i pl es = Some (es', pl') /\
      Forall (fun e => entity_ok (Enemy.base e)) es' /\ player_ok pl'.
Proof.
  induction es as [|e es IH]; intros i pl Hpl Hes.
  - exists [], pl; split; [reflexivity | split; [constructor | exact Hpl]].
  - inversion Hes as [|? ? He Hrest]; subst.
    destruct (enemy_update_ok dt (rnd i) pl e Hpl He)
      as (e' & pl1 & Hu & He' & Hpl1).
    destruct (IH (S i) pl1 Hpl1 Hrest) as (es' & pl2 & Hus & Hes' & Hpl2).
    exists (e' :: es'), pl2.
    cbn [update_enemies]; rewrite Hu; cbn [bind]; rewrite Hus; cbn [bind].
    split; [reflexivity | split; [now constructor | exact Hpl2]].
Qed.

(** The hit of the player's attack: a [take_damage] of 28 and a knockback
    that is computed only for a direction that is not zero. *)
Lemma resolve_hit_ok (center : Vector2) (radius : R) (pl : Player.t)
    (en : Enemy.t) :
  entity_ok (Enemy.base en) ->
  exists en', resolve_hit center radius pl en = Some en' /\
              entity_ok (Enemy.base en').
Proof.
  intros Hen; unfold resolve_hit.
  destruct (Enemy.alive en && circle_collide _ _ _ _); [|now exists en].
  assert (Hd : entity_ok (Enemy.base (snd (Enemy.take_damage en 28)))).
  { unfold Enemy.take_damage.
    pose proof (take_damage_ok (Enemy.base en) 28) as Hok.
    destruct (Entity.take_damage (Enemy.base en) 28) as [applied b].
    apply Hok; [lra | exact Hen]. }
  set (en1 := snd (Enemy.take_damage en 28)) in *.
  destruct (gtb (length_squared _) 0) eqn:Hdir; [|now exists en1].
  apply gtb_true in Hdir.
  destruct (normalize_nonzero _ Hdir) as (n & Hn & _); rewrite Hn; cbn [bind].
  eexists; split; [reflexivity|].
  apply (entity_ok_ext _ (Enemy.base en1)); try reflexivity; exact Hd.
Qed.

Lemma resolve_hits_ok (center : Vector2) (radius : R) (pl : Player.t)
    (es : list Enemy.t) :
  Forall (fun e => entity_ok (Enemy.base e)) es ->
  exists es', resolve_hits center radius pl es = Some es' /\
              Forall (fun e => entity_ok (Enemy.base e)) es'.
Proof.
  induction es as [|en es IH]; intros Hes.
  - exists []; split; auto.
  - inversion Hes as [|? ? Hen Hrest]; subst.
    destruct (resolve_hit_ok center radius pl en Hen) as (en' & Hh & Hen').
    destruct (IH Hrest) as (es' & Hhs & Hes').
    exists (en' :: es'); cbn [resolve_hits].
    rewrite Hh; cbn [bind]; rewrite Hhs; cbn [bind]; split; auto.
Qed.

Lemma enemy_init_ok (pos : Vector2) : entity_ok (Enemy.base (Enemy.init pos)).
Proof. unfold entity_ok; cbn; repeat split; intros; lra. Qed.

Lemma respawn_wave_ok (roll : R) (spawn : nat -> Vector2) (es : list Enemy.t) :
  Forall (fun e => entity_ok (Enemy.base e)) es ->
  Forall (fun e => entity_ok (Enemy.base e)) (respawn_wave roll spawn es).
Proof.
  intros Hes; unfold respawn_wave.
  destruct (Nat.eqb (alive_n es) 0 && ltb roll 0.01); [|exact Hes].
  apply Forall_forall; intros e He.
  apply in_map_iff in He; destruct He as (i & <- & _); apply enemy_init_ok.
Qed.

(** One frame of the simulation never raises and keeps the range of [hp]
    of every entity. *)
Lemma frame_ok (i : FrameInput) (w : World) :
  world_ok w -> exists w', frame i w = Some w' /\ world_ok w'.
Proof.
  intros [Hpl Hes]; unfold frame.
  destruct (player_update_ok (frame_dt i) (frame_keys i) (player w) Hpl)
    as (pl1 & Hu & Hpl1).
  rewrite Hu; cbn [bind].
  destruct (update_enemies_ok (frame_dt i) (enemy_rnd i) (enemies w) 0 pl1 Hpl1 Hes)
    as (es1 & pl2 & Hue & Hes1 & Hpl2).
  rewrite Hue; cbn [bind].
  destruct Hpl2 as [Hb2 Hf2].
  destruct (Rlt_le_dec 0 (Player.attack_timer pl2)) as [Ht | Ht].
  - rewrite (attack_hitbox_active pl2 Hf2 Ht); cbn [bind].
    destruct (resolve_hits_ok
                (vadd (Player.pos pl2)
                   (vscale (Player.facing pl2) (Player.radius pl2 + 24)))
                30 pl2 es1 Hes1) as (es2 & Hh & Hes2).
    rewrite Hh; cbn [bind].
    eexists; split; [reflexivity|].
    split; [split; assumption | now apply respawn_wave_ok].
  - rewrite (attack_hitbox_idle pl2 Ht); cbn [bind].
    eexists; split; [reflexivity|].
    split; [split; assumption | now apply respawn_wave_ok].
Qed.

Lemma initial_world_ok (spawn : nat -> Vector2) : world_ok (initial_world spawn).
Proof.
  split.
  - split; [|unfold length_squared; cbn; lra].
    unfold entity_ok; cbn; repeat split; intros; lra.
  - cbn; repeat constructor; intros; cbn; lra.
Qed.

(** C1, amended.  Over every sequence of frames of the simulation, from a
    world in which it holds, every entity keeps [hp <= max_hp] and, while
    it is alive, [0 < hp] (no frame raises).  There is no lower clamp on
    [hp]: for an alive entity that is not invulnerable, [take_damage]
    leaves [hp - amount], which is negative exactly when the amount exceeds
    [hp]; an entity whose [hp] is not positive after the hit is not
    alive. *)
Theorem hp_range_maintained (ins : list FrameInput) (w : World) :
  world_ok w ->
  (exists w', run ins w = Some w' /\ world_ok w') /\
  (forall e amount,
     Entity.alive e = true -> Entity.invuln_timer e <= 0 ->
     let e' := snd (Entity.take_damage e amount) in
     Entity.hp e' = Entity.hp e - amount /\
     (Entity.hp e' < 0 <-> Entity.hp e < amount) /\
     (Entity.hp e' <= 0 -> Entity.alive e' = false)).
Proof.
  intros Hw; split.
  - revert w Hw; induction ins as [|i ins IH]; intros w Hw.
    + exists w; split; [reflexivity | exact Hw].
    + destruct (frame_ok i w Hw) as (w1 & Hf & Hw1).
      cbn [run]; rewrite Hf; cbn [bind]; now apply IH.
  - intros e amount Ha Hi.
    rewrite (take_damage_applied e amount Hi Ha); cbn.
    split; [reflexivity|]; split; [split; intros; lra|].
    intros Hle; now rewrite (proj2 (leb_true _ _) Hle).
Qed.

Lemma hp_range_maintained_witness :
  exists w',
    run [idle_frame; idle_frame] (initial_world (fun _ => (500, 500))) = Some w' /\
    world_ok w'.
Proof.
  apply (hp_range_maintained [idle_frame; idle_frame]
           (initial_world (fun _ => (500, 500)))).
  apply initial_world_ok.
Defined.

(** * Further properties of the code *)

(** ** The arena *)

Lemma move_pos (dt : R) (mv : Vector2) (a : bool) (p : Player.t) :
  in_arena (Player.pos (Player.move dt mv a p)).
Proof.
  unfold Player.move, in_arena.
  match goal with |- context [if ?c then _ else _] => destruct c end;
    cbn; split; apply clamp_bounds; unfold WIDTH, HEIGHT; lra.
Qed.

(** X1.  Whatever the frame, the inputs and the state before, [Player.update]
    returns with the player inside the arena less its margin. *)
Theorem player_stays_in_arena (dt : R) (k : Input) (p : Player.t) :
  exists pf, Player.update dt k p = Some pf /\ in_arena (Player.pos pf).
Proof.
  destruct (update_started_spec dt k p) as (p1 & mv & _ & Hu & _).
  eexists; split; [unfold Player.update; rewrite Hu; reflexivity|].
  apply move_pos.
Qed.

Lemma update_timers_alive (dt : R) (e : Entity.t) :
  Entity.alive (Entity.update_timers dt e) = Entity.alive e.
Proof. now destruct (update_timers_fields dt e) as (_ & _ & _ & _ & _ & Ha & _). Qed.

(** X3.  An alive enemy ends its [update] inside the arena less its margin,
    whichever of chasing, striking and wandering it did; the reach
    (both radii and the melee buffer of 6) must not be negative for the
    chase not to raise. *)
Theorem enemy_stays_in_arena (dt : R) (rnd : Enemy.Rnd) (pl : Player.t)
    (e : Enemy.t) :
  Enemy.alive e = true ->
  0 <= Enemy.radius e + Player.radius pl + 6 ->
  exists e' pl',
    Enemy.update dt rnd pl e = Some (e', pl') /\ in_arena (Enemy.pos e').
Proof.
  intros Halive Hreach; unfold Enemy.update.
  set (e0 := Enemy.set_base e (Entity.update_timers dt (Enemy.base e))).
  assert (Ha0 : Enemy.alive e0 = true).
  { unfold e0, Enemy.alive in *; cbn; now rewrite update_timers_alive. }
  assert (Hr0 : Enemy.radius e0 = Enemy.radius e).
  { unfold e0, Enemy.radius; cbn.
    now destruct (update_timers_fields dt (Enemy.base e)) as (_ & _ & Hr & _). }
  rewrite Ha0; cbn [negb].
  assert (Hclamp : forall e1 : Enemy.t,
    in_arena (Enemy.pos
      (Enemy.set_pos
         (Enemy.set_pos e1 (clamp (vx (Enemy.pos e1)) 20 (WIDTH - 20),
                            vy (Enemy.pos e1)))
         (vx (Enemy.pos
                (Enemy.set_pos e1 (clamp (vx (Enemy.pos e1)) 20 (WIDTH - 20),
                                   vy (Enemy.pos e1)))),
          clamp (vy (Enemy.pos
                (Enemy.set_pos e1 (clamp (vx (Enemy.pos e1)) 20 (WIDTH - 20),
                                   vy (Enemy.pos e1))))) 20 (HEIGHT - 20))))).
  { intros e1; unfold in_arena; cbn.
    split; apply clamp_bounds; unfold WIDTH, HEIGHT; lra. }
  destruct (ltb _ 300).
  - destruct (update_near_spec dt (vsub (Player.pos pl) (Enemy.pos e0)) pl e0)
      as (e1 & Hu & _).
    { now rewrite Hr0. }
    rewrite Hu; cbn [bind].
    do 2 eexists; split; [reflexivity | apply Hclamp].
  - cbn [bind]; do 2 eexists; split; [reflexivity | apply Hclamp].
Qed.

Lemma enemy_stays_in_arena_witness :
  exists e' pl',
    Enemy.update 0.01 (Enemy.mkRnd 3 0.5 0.5) (Player.init (960, 540))
      (Enemy.init (5000, -40)) = Some (e', pl') /\
    in_arena (Enemy.pos e').
Proof.
  apply (enemy_stays_in_arena 0.01 (Enemy.mkRnd 3 0.5 0.5)
           (Player.init (960, 540)) (Enemy.init (5000, -40))).
  - reflexivity.
  - cbn; lra.
Defined.

(** X4.  A dead enemy is inert: its [update] never raises, moves nothing
    (position and velocity stay, also outside the arena: the clamp is
    skipped), leaves the player and the attack cooldown alone, and revives
    the enemy with full [hp] exactly in the frame in which a running
    respawn timer reaches 0 or less. *)
Theorem dead_enemy_is_inert (dt : R) (rnd : Enemy.Rnd) (pl : Player.t)
    (e : Enemy.t) :
  Enemy.alive e = false ->
  exists e',
    Enemy.update dt rnd pl e = Some (e', pl) /\
    Enemy.pos e' = Enemy.pos e /\ Enemy.vel e' = Enemy.vel e /\
    Enemy.attack_cooldown e' = Enemy.attack_cooldown e /\
    (Enemy.alive e' = true <->
     0 < Enemy.respawn_time e /\ Enemy.respawn_time e <= dt) /\
    (Enemy.alive e' = true -> Enemy.hp e' = Enemy.max_hp e) /\
    (Enemy.alive e' = false -> Enemy.hp e' = Enemy.hp e).
Proof.
  intros Hdead; unfold Enemy.update.
  destruct (update_timers_fields dt (Enemy.base e))
    as (Tp & Tv & _ & Th & Tm & Ta & _); cbn zeta in *.
  set (e0 := Enemy.set_base e (Entity.update_timers dt (Enemy.base e))).
  assert (Ha0 : Enemy.alive e0 = false).
  { unfold e0, Enemy.alive in *; cbn; congruence. }
  rewrite Ha0; cbn [negb].
  eexists; split; [reflexivity|].
  unfold Enemy.update_dead, Enemy.pos, Enemy.vel, Enemy.alive, Enemy.hp,
    Enemy.max_hp in *.
  destruct e as [b cd sp rt]; cbn in *.
  destruct (leb rt 0) eqn:Hrt; reflect_cmp; cbn.
  - rewrite Tp, Tv, Ta, Th, Hdead.
    repeat split; auto; try discriminate; intros; lra.
  - destruct (leb (rt - dt) 0) eqn:Hrt'; reflect_cmp; cbn.
    + rewrite Tp, Tv, Tm. repeat split; auto; try discriminate; lra.
    + rewrite Tp, Tv, Ta, Th, Hdead.
      repeat split; auto; try discriminate; intros; lra.
Qed.

Lemma dead_enemy_is_inert_witness :
  exists e',
    Enemy.update 0.01 (Enemy.mkRnd 3 0.5 0.5) (Player.init (960, 540))
      (Enemy.mk (Entity.mk (1910, 500) (0, 0) 16 (-4) 80 false 0.3) 0 100 0.005)
    = Some (e', Player.init (960, 540)) /\
    Enemy.pos e' = (1910, 500) /\ Enemy.vel e' = (0, 0) /\
    Enemy.attack_cooldown e' = 0 /\
    (Enemy.alive e' = true <-> 0 < 0.005 /\ 0.005 <= 0.01) /\
    (Enemy.alive e' = true -> Enemy.hp e' = 80) /\
    (Enemy.alive e' = false -> Enemy.hp e' = -4).
Proof.
  apply (dead_enemy_is_inert 0.01 (Enemy.mkRnd 3 0.5 0.5) (Player.init (960, 540))
           (Enemy.mk (Entity.mk (1910, 500) (0, 0) 16 (-4) 80 false 0.3)
              0 100 0.005)).
  reflexivity.
Defined.

(** ** The grace period after a hit *)





(** ** The enemies and the player *)

(** A second [take_damage] right after a first one changes nothing: the
    first either set the invulnerability timer or was rejected for a reason
    that still holds. *)
Lemma take_damage_twice (e : Entity.t) (a b : R) :
  snd (Entity.take_damage (snd (Entity.take_damage e a)) b)
  = snd (Entity.take_damage e a).
Proof.
  destruct (Rlt_le_dec 0 (Entity.invuln_timer e)) as [Hi | Hi].
  { rewrite (take_damage_rejected e a) by (now left); cbn [snd].
    now rewrite take_damage_rejected by (now left). }
  destruct (Entity.alive e) eqn:Ha.
  - rewrite (take_damage_applied e a Hi Ha); cbn [snd].
    rewrite take_damage_rejected; [reflexivity | left; cbn; lra].
  - rewrite (take_damage_rejected e a) by (now right); cbn [snd].
    now rewrite take_damage_rejected by (now right).
Qed.

Lemma player_take_damage_snd (pl : Player.t) (a : R) :
  snd (Player.take_damage pl a)
  = Player.set_base pl (snd (Entity.take_damage (Player.base pl) a)).
Proof.
  unfold Player.take_damage.
  now destruct (Entity.take_damage (Player.base pl) a).
Qed.

Lemma player_take_damage_twice (pl : Player.t) (a b : R) :
  snd (Player.take_damage (snd (Player.take_damage pl a)) b)
  = snd (Player.take_damage pl a).
Proof.
  rewrite !player_take_damage_snd; cbn.
  now rewrite take_damage_twice.
Qed.

(** What one [Enemy.update] does to the player: nothing, or one
    [take_damage] of [ENEMY_DAMAGE]. *)
Lemma enemy_update_player (dt : R) (rnd : Enemy.Rnd) (pl : Player.t)
    (e : Enemy.t) :
  0 <= Enemy.radius e + Player.radius pl + 6 ->
  exists e' pl',
    Enemy.update dt rnd pl e = Some (e', pl') /\
    (pl' = pl \/
     (pl' = snd (Player.take_damage pl ENEMY_DAMAGE) /\
      Player.invuln_timer pl <= 0)).
Proof.
  intros Hreach.
  destruct (enemy_update_spec dt rnd pl e Hreach)
    as (e' & pl' & Hu & _ & _ & _ & Hdead & Halive).
  exists e', pl'; split; [exact Hu|].
  destruct (Enemy.alive e) eqn:Ha.
  - destruct (Halive eq_refl) as (_ & _ & _ & Hnear & Hfar).
    destruct (Rlt_le_dec
                (length (vsub (Player.pos pl) (Enemy.pos e))) 300) as [Hd | Hd].
    + destruct (Hnear Hd) as (-> & _).
      destruct (strikes _ pl e) eqn:Hs; [right | now left].
      split; [reflexivity|].
      unfold strikes in Hs.
      apply andb_true_iff in Hs; destruct Hs as [_ Hs].
      apply andb_true_iff in Hs; destruct Hs as [_ Hs].
      now apply leb_true in Hs.
    + destruct (Hfar Hd) as (-> & _); now left.
  - destruct (Hdead eq_refl) as (-> & _); now left.
Qed.

(** The loop over the enemies: it never raises on entities of
    non-negative radius, keeps the number of enemies, and does to the
    player nothing or exactly one [take_damage] of [ENEMY_DAMAGE]. *)
Lemma update_enemies_spec (dt : R) (rnd : nat -> Enemy.Rnd) (es : list Enemy.t) :
  forall (i : nat) (pl : Player.t),
    0 <= Player.radius pl ->
    Forall (fun e => 0 <= Enemy.radius e) es ->
    exists es' pl',
      update_enemies dt rnd i pl es = Some (es', pl') /\
      List.length es' = List.length es /\
      (pl' = pl \/
       (pl' = snd (Player.take_damage pl ENEMY_DAMAGE) /\
        Player.invuln_timer pl <= 0)).
Proof.
  induction es as [|e es IH]; intros i pl Hpl Hes.
  - exists [], pl; repeat split; auto.
  - inversion Hes as [|? ? He Hrest]; subst.
    destruct (enemy_update_player dt (rnd i) pl e) as (e' & pl1 & Hu & H1);
      [lra|].
    assert (Hr1 : 0 <= Player.radius pl1).
    { destruct H1 as [-> | [-> _]]; [exact Hpl|].
      now rewrite player_take_damage_radius. }
    destruct (IH (S i) pl1 Hr1 Hrest) as (es' & pl2 & Hus & Hlen & H2).
    exists (e' :: es'), pl2.
    cbn [update_enemies]; rewrite Hu; cbn [bind]; rewrite Hus; cbn [bind].
    split; [reflexivity|]; split; [cbn; now rewrite Hlen|].
    destruct H1 as [-> | [-> Hi1]]; [exact H2|].
    right; split; [|exact Hi1].
    destruct H2 as [-> | [-> _]]; [reflexivity|].
    apply player_take_damage_twice.
Qed.

(** X6.  However many enemies are in reach, the player is hit at most once in
    a frame: after the loop over the enemies the player is unchanged or has
    taken one [take_damage] of 12, so [hp] drops by at most 12; and an
    invulnerable or dead player comes out unchanged. *)
Theorem player_hit_once_per_frame (dt : R) (rnd : nat -> Enemy.Rnd)
    (pl : Player.t) (es : list Enemy.t) :
  0 <= Player.radius pl ->
  Forall (fun e => 0 <= Enemy.radius e) es ->
  exists es' pl',
    update_enemies dt rnd 0 pl es = Some (es', pl') /\
    (pl' = pl \/ pl' = snd (Player.take_damage pl 12)) /\
    Player.hp pl - 12 <= Player.hp pl' <= Player.hp pl /\
    (0 < Player.invuln_timer pl \/ Player.alive pl = false -> pl' = pl).
Proof.
  intros Hpl Hes.
  destruct (update_enemies_spec dt rnd es 0 pl Hpl Hes)
    as (es' & pl' & Hu & _ & Hcase).
  exists es', pl'; split; [exact Hu|].
  assert (Hrej : 0 < Player.invuln_timer pl \/ Player.alive pl = false ->
                 snd (Player.take_damage pl ENEMY_DAMAGE) = pl).
  { intros Hr; rewrite player_take_damage_snd.
    rewrite (take_damage_rejected (Player.base pl) ENEMY_DAMAGE Hr).
    now destruct pl. }
  destruct Hcase as [-> | [-> Hi]].
  - repeat split; auto; lra.
  - split; [now right|]; split; [|exact Hrej].
    destruct (Player.alive pl) eqn:Ha.
    + rewrite player_take_damage_snd; unfold Player.hp, Player.alive in *.
      rewrite (take_damage_applied (Player.base pl) ENEMY_DAMAGE Hi Ha).
      cbn; unfold ENEMY_DAMAGE; lra.
    + rewrite Hrej by (now right); lra.
Qed.

Lemma player_hit_once_per_frame_witness :
  exists es' pl',
    update_enemies 0.01 (fun _ => Enemy.mkRnd 3 0.5 0.5) 0
      (Player.init (960, 540))
      [Enemy.init (950, 540); Enemy.init (970, 540); Enemy.init (960, 550)]
    = Some (es', pl') /\
    (pl' = Player.init (960, 540) \/
     pl' = snd (Player.take_damage (Player.init (960, 540)) 12)) /\
    Player.hp (Player.init (960, 540)) - 12 <= Player.hp pl'
      <= Player.hp (Player.init (960, 540)) /\
    (0 < Player.invuln_timer (Player.init (960, 540)) \/
     Player.alive (Player.init (960, 540)) = false ->
     pl' = Player.init (960, 540)).
Proof.
  apply (player_hit_once_per_frame 0.01 (fun _ => Enemy.mkRnd 3 0.5 0.5)
           (Player.init (960, 540))
           [Enemy.init (950, 540); Enemy.init (970, 540); Enemy.init (960, 550)]).
  - cbn; lra.
  - repeat constructor; cbn; lra.
Defined.

(** ** The population of enemies *)

Lemma update_enemies_length (dt : R) (rnd : nat -> Enemy.Rnd) (es : list Enemy.t) :
  forall i pl es' pl',
    update_enemies dt rnd i pl es = Some (es', pl') ->
    List.length es' = List.length es.
Proof.
  induction es as [|e es IH]; intros i pl es' pl' H; cbn in H.
  - now injection H as <- _.
  - destruct (Enemy.update dt (rnd i) pl e) as [[e1 pl1]|]; cbn in H;
      [|discriminate].
    destruct (update_enemies dt rnd (S i) pl1 es) as [[es1 pl2]|] eqn:Hes;
      cbn in H; [|discriminate].
    injection H as <- _; cbn; f_equal; eapply IH; eassumption.
Qed.

Lemma resolve_hits_length (center : Vector2) (radius : R) (pl : Player.t)
    (es : list Enemy.t) :
  forall es', resolve_hits center radius pl es = Some es' ->
              List.length es' = List.length es.
Proof.
  induction es as [|e es IH]; intros es' H; cbn in H.
  - now injection H as <-.
  - destruct (resolve_hit center radius pl e) as [e1|]; cbn in H; [|discriminate].
    destruct (resolve_hits center radius pl es) as [es1|]; cbn in H;
      [|discriminate].
    injection H as <-; cbn; f_equal; now apply IH.
Qed.

Lemma alive_n_zero (es : list Enemy.t) :
  alive_n es = 0%nat <-> Forall (fun e => Enemy.alive e = false) es.
Proof.
  unfold alive_n; induction es as [|e es IH]; cbn.
  - split; auto.
  - destruct (Enemy.alive e) eqn:Ha; cbn.
    + split; [discriminate|].
      intros H; inversion H; congruence.
    + rewrite IH; split; intros H; [now constructor | now inversion H].
Qed.

(** X11.  The group respawn happens only when no enemy is alive (an empty list
    counts) and the draw is below 0.01; it then replaces the whole list by
    four fresh enemies, alive with 80 [hp], at the drawn positions.  As
    long as one enemy is alive, or the draw is 0.01 or more, the list is
    untouched. *)
Theorem respawn_wave_spec (roll : R) (spawn : nat -> Vector2) (es : list Enemy.t) :
  (Exists (fun e => Enemy.alive e = true) es -> respawn_wave roll spawn es = es) /\
  (0.01 <= roll -> respawn_wave roll spawn es = es) /\
  (Forall (fun e => Enemy.alive e = false) es -> roll < 0.01 ->
   respawn_wave roll spawn es =
   [Enemy.init (spawn 0%nat); Enemy.init (spawn 1%nat);
    Enemy.init (spawn 2%nat); Enemy.init (spawn 3%nat)] /\
   Forall (fun e => Enemy.alive e = true /\ Enemy.hp e = 80 /\
                    Enemy.invuln_timer e = 0)
          (respawn_wave roll spawn es)).
Proof.
  unfold respawn_wave; repeat split.
  - intros Hex.
    destruct (Nat.eqb (alive_n es) 0) eqn:Hn; [|reflexivity].
    apply Nat.eqb_eq, alive_n_zero in Hn.
    apply Exists_exists in Hex; destruct Hex as (e & Hin & Ha).
    rewrite Forall_forall in Hn; specialize (Hn e Hin); congruence.
  - intros Hroll; unfold ltb.
    rewrite (proj2 (gtb_false 0.01 roll)) by lra.
    now rewrite andb_false_r.
  - apply alive_n_zero, Nat.eqb_eq in H.
    rewrite H, (proj2 (ltb_true roll 0.01)) by assumption; reflexivity.
  - apply alive_n_zero, Nat.eqb_eq in H.
    rewrite H, (proj2 (ltb_true roll 0.01)) by assumption; cbn.
    repeat constructor; cbn; lra.
Qed.

Lemma respawn_wave_spec_witness :
  respawn_wave 0.005 (fun _ => (500, 500))
    [Enemy.mk (Entity.mk (300, 300) (0, 0) 16 (-4) 80 false 0) 0 100 2]
  = [Enemy.init (500, 500); Enemy.init (500, 500);
     Enemy.init (500, 500); Enemy.init (500, 500)] /\
  respawn_wave 0.005 (fun _ => (500, 500)) [Enemy.init (300, 300)]
  = [Enemy.init (300, 300)].
Proof.
  split.
  - destruct (respawn_wave_spec 0.005 (fun _ => (500, 500))
                [Enemy.mk (Entity.mk (300, 300) (0, 0) 16 (-4) 80 false 0) 0 100 2])
      as (_ & _ & Hwave).
    apply Hwave; [repeat constructor | lra].
  - destruct (respawn_wave_spec 0.005 (fun _ => (500, 500)) [Enemy.init (300, 300)])
      as (Hkeep & _).
    apply Hkeep; constructor; reflexivity.
Defined.

Lemma respawn_wave_length (roll : R) (spawn : nat -> Vector2) (es : list Enemy.t) :
  List.length (respawn_wave roll spawn es) = List.length es \/
  List.length (respawn_wave roll spawn es) = 4%nat.
Proof.
  unfold respawn_wave.
  destruct (Nat.eqb (alive_n es) 0 && ltb roll 0.01); [now right | now left].
Qed.

Lemma frame_length (i : FrameInput) (w w' : World) :
  frame i w = Some w' ->
  List.length (enemies w') = List.length (enemies w) \/
  List.length (enemies w') = 4%nat.
Proof.
  unfold frame; intros H.
  destruct (Player.update _ _ _) as [pl|]; cbn in H; [|discriminate].
  destruct (update_enemies _ _ _ _ _) as [[es pl1]|] eqn:Hes; cbn in H;
    [|discriminate].
  apply update_enemies_length in Hes.
  destruct (Player.attack_hitbox pl1) as [hit|]; cbn in H; [|discriminate].
  destruct hit as [[center radius]|].
  - destruct (resolve_hits center radius pl1 es) as [es1|] eqn:Hh; cbn in H;
      [|discriminate].
    apply resolve_hits_length in Hh.
    injection H as <-; cbn.
    destruct (respawn_wave_length (wave_roll i) (wave_pos i) es1); [left|right];
      congruence.
  - cbn in H; injection H as <-; cbn.
    destruct (respawn_wave_length (wave_roll i) (wave_pos i) es); [left|right];
      congruence.
Qed.

(** X12.  The game always has four enemies: from a world with four enemies
    (the initial world is one) every run of frames returns a world with
    four enemies, dead or alive; enemies are never added or removed one
    by one. *)
Theorem four_enemies_forever (ins : list FrameInput) (w : World) :
  world_ok w -> List.length (enemies w) = 4%nat ->
  exists w', run ins w = Some w' /\ List.length (enemies w') = 4%nat.
Proof.
  revert w; induction ins as [|i ins IH]; intros w Hw Hlen.
  - exists w; split; [reflexivity | exact Hlen].
  - destruct (frame_ok i w Hw) as (w1 & Hf & Hw1).
    cbn [run]; rewrite Hf; cbn [bind].
    apply IH; [exact Hw1|].
    destruct (frame_length i w w1 Hf); congruence.
Qed.

Lemma four_enemies_forever_witness :
  exists w',
    run [idle_frame; idle_frame; idle_frame] (initial_world (fun _ => (500, 500)))
    = Some w' /\
    List.length (enemies w') = 4%nat.
Proof.
  apply (four_enemies_forever [idle_frame; idle_frame; idle_frame]
           (initial_world (fun _ => (500, 500)))).
  - apply initial_world_ok.
  - reflexivity.
Defined.

(** ** The roll as a state machine *)

(** Case analysis on the comparisons, for goals that mix inequalities
    and booleans. *)
Ltac cmp_bool :=
  cmp_cases; repeat split; intros; subst;
  try lra; try reflexivity; try discriminate; try congruence.

Lemma actions_roll_state (k : Input) (p : Player.t) :
  let s := snd (Player.actions k p) in
  let p' := fst (Player.actions k p) in
  Player.is_rolling p' =
    (if Player.roll_started s then true else Player.is_rolling p) /\
  Player.vel p' =
    (if Player.roll_started s then vscale (Player.facing p) ROLL_SPEED
     else Player.vel p).
Proof.
  rewrite actions_unfold; cbn [fst snd Player.roll_started].
  destruct (try_roll_spec k p) as (_ & Hr1 & Hr0).
  set (pre := fst (Player.try_roll k p)) in *.
  destruct (try_light_spec k pre) as (_ & Hl1 & Hl0).
  set (mid := fst (Player.try_light k pre)) in *.
  destruct (try_heavy_spec k mid) as (_ & Hh1 & Hh0).
  destruct (snd (Player.try_heavy k mid));
    [rewrite (Hh1 eq_refl) | rewrite (Hh0 eq_refl)];
    (destruct (snd (Player.try_light k pre));
     [rewrite (Hl1 eq_refl) | rewrite (Hl0 eq_refl)]);
    (destruct (snd (Player.try_roll k p));
     [rewrite (Hr1 eq_refl) | rewrite (Hr0 eq_refl)]);
    cbn; split; reflexivity.
Qed.

(** The roll fields at the end of a frame, from those at its start and
    from whether a roll started. *)
Lemma frame_roll_fields (dt : R) (k : Input) (p : Player.t) :
  exists pf s,
    Player.update_started dt k p = Some (pf, s) /\
    (Player.roll_started s = true -> Player.roll_cooldown p <= 0) /\
    let rt := if Player.roll_started s then 0.26 else Player.roll_timer p in
    let rc := if Player.roll_started s then 0.8 else Player.roll_cooldown p in
    Player.roll_timer pf = (if gtb rt 0 then Rmax 0 (rt - dt) else rt) /\
    Player.roll_cooldown pf = (if gtb rc 0 then Rmax 0 (rc - dt) else rc) /\
    Player.is_rolling pf =
      (if gtb rt 0 && eqb (Rmax 0 (rt - dt)) 0 then false
       else if Player.roll_started s then true else Player.is_rolling p).
Proof.
  destruct (update_started_spec dt k p)
    as (p1 & mv & _ & Hu & _ & _ & _ & _ & Ert & Erc & Eir & _).
  do 2 eexists; split; [exact Hu|].
  destruct (move_fields dt mv (Player.attacking (snd (Player.actions k p1)))
              (Player.tick_timers dt (fst (Player.actions k p1))))
    as (_ & _ & M3 & M4 & _ & _ & M7 & _).
  destruct (tick_timers_fields dt (fst (Player.actions k p1)))
    as (_ & _ & T3 & T4 & _ & _ & T7 & _).
  destruct (actions_fields k p1) as (_ & _ & A3 & A4 & _).
  destruct (actions_roll_state k p1) as (A7 & _).
  cbn zeta in *.
  rewrite M3, M4, M7, T3, T4, T7, A3, A4, A7, Ert, Erc, Eir.
  unfold ROLL_COOLDOWN.
  split; [|repeat split; reflexivity].
  rewrite actions_unfold; cbn [snd Player.roll_started]; intros Hs.
  apply (proj1 (try_roll_spec k p1)) in Hs; rewrite <- Erc; tauto.
Qed.

Lemma roll_ok_frame (dt : R) (k : Input) (p : Player.t) :
  roll_ok p ->
  exists pf s,
    Player.update_started dt k p = Some (pf, s) /\ roll_ok pf /\
    (Player.is_rolling p = true -> Player.roll_started s = false).
Proof.
  intros (Hrt & Hir & Hrc).
  destruct (frame_roll_fields dt k p) as (pf & s & Hu & Hgate & Ft & Fc & Fi).
  exists pf, s; split; [exact Hu|]; cbn zeta in *.
  split.
  - unfold roll_ok; rewrite Ft, Fc, Fi, Hir.
    destruct (Player.roll_started s); cbn [andb]; clear Ft Fc Fi Hir Hgate.
    + cmp_bool.
    + destruct (Rlt_dec 0 (Player.roll_timer p)) as [Hpos | Hzero].
      * specialize (Hrc Hpos); rewrite Hrc; cmp_bool.
      * clear Hrc; cmp_bool.
  - intros Hroll; rewrite Hir in Hroll; apply gtb_true in Hroll.
    destruct (Player.roll_started s); [|reflexivity].
    specialize (Hgate eq_refl); specialize (Hrc Hroll); lra.
Qed.

(** X13.  Along every run of [Player.update], at the end of each frame
    [is_rolling] is exactly [roll_timer > 0], and during a roll
    [roll_cooldown] is [roll_timer + 0.54]; so a roll never starts while
    the player is rolling, whatever the keys. *)
Theorem roll_state_machine (fs : list (R * Input)) (p : Player.t) :
  roll_ok p ->
  (exists p', run_player fs p = Some p' /\ roll_ok p') /\
  (forall dt k, Player.is_rolling p = true ->
     exists pf s, Player.update_started dt k p = Some (pf, s) /\
                  Player.roll_started s = false).
Proof.
  intros Hp; split.
  - revert p Hp; induction fs as [|[dt k] fs IH]; intros p Hp.
    + exists p; split; [reflexivity | exact Hp].
    + destruct (roll_ok_frame dt k p Hp) as (pf & s & Hu & Hpf & _).
      cbn [run_player]; unfold Player.update; rewrite Hu; cbn [bind].
      now apply IH.
  - intros dt k Hroll.
    destruct (roll_ok_frame dt k p Hp) as (pf & s & Hu & _ & Hno).
    exists pf, s; split; [exact Hu | now apply Hno].
Qed.

Lemma roll_state_machine_witness :
  exists p',
    run_player [(0.01, roll_only); (0.1, roll_only); (0.2, roll_and_light)]
      (Player.init (960, 540)) = Some p' /\
    roll_ok p'.
Proof.
  apply (roll_state_machine
           [(0.01, roll_only); (0.1, roll_only); (0.2, roll_and_light)]
           (Player.init (960, 540))).
  unfold roll_ok; cbn; repeat split.
  - lra.
  - unfold gtb; destruct (Rlt_dec 0 0.0); [lra | reflexivity].
  - intros H; lra.
Defined.

(** ** The attack as a state machine *)

(** An attack that starts found the attack cooldown of the frame's start
    run out. *)
Lemma attack_gate (k : Input) (p : Player.t) :
  let s := snd (Player.actions k p) in
  Player.light_started s = true \/ Player.heavy_started s = true ->
  Player.attack_cooldown p <= 0.
Proof.
  rewrite actions_unfold; cbn [snd Player.light_started Player.heavy_started].
  pose proof (try_roll_attack_cooldown k p) as Hpre.
  set (pre := fst (Player.try_roll k p)) in *.
  destruct (try_light_spec k pre) as (Hl & _ & Hl0).
  destruct (try_heavy_spec k (fst (Player.try_light k pre))) as (Hh & _).
  intros [Hs | Hs].
  - apply Hl in Hs; rewrite <- Hpre; tauto.
  - destruct (snd (Player.try_light k pre)) eqn:Hls.
    + destruct (proj1 Hl eq_refl) as (_ & Hc & _); lra.
    + rewrite (Hl0 eq_refl) in Hh, Hs; apply Hh in Hs; rewrite <- Hpre; tauto.
Qed.

Lemma attack_ok_frame (dt : R) (k : Input) (p : Player.t) :
  attack_ok p ->
  exists pf s,
    Player.update_started dt k p = Some (pf, s) /\ attack_ok pf /\
    (0 < Player.attack_timer p ->
     Player.light_started s = false /\ Player.heavy_started s = false).
Proof.
  intros (Hat & Hac).
  destruct (update_started_spec dt k p)
    as (p1 & mv & _ & Hu & _ & _ & Eat & Eac & _).
  do 2 eexists; split; [exact Hu|].
  destruct (move_fields dt mv (Player.attacking (snd (Player.actions k p1)))
              (Player.tick_timers dt (fst (Player.actions k p1))))
    as (M1 & M2 & _).
  destruct (tick_timers_fields dt (fst (Player.actions k p1)))
    as (T1 & T2 & _).
  destruct (actions_fields k p1) as (A1 & A2 & _).
  pose proof (attack_gate k p1) as Hgate.
  cbn zeta in *; rewrite Eac in Hgate.
  unfold attack_ok; rewrite M1, M2, T1, T2, A1, A2, Eat, Eac.
  clear M1 M2 T1 T2 A1 A2 Eat Eac Hu.
  unfold ATTACK_COOLDOWN, HEAVY_ATTACK_COOLDOWN.
  destruct (Player.light_started _) eqn:Hl, (Player.heavy_started _) eqn:Hh.
  - specialize (Hgate (or_introl eq_refl)); split; [cmp_bool|].
    intros Hpos; destruct (Hac Hpos); lra.
  - specialize (Hgate (or_introl eq_refl)); split; [cmp_bool|].
    intros Hpos; destruct (Hac Hpos); lra.
  - specialize (Hgate (or_intror eq_refl)); split; [cmp_bool|].
    intros Hpos; destruct (Hac Hpos); lra.
  - clear Hgate; split; [|auto].
    destruct (Rlt_dec 0 (Player.attack_timer p)) as [Hpos | Hzero].
    + destruct (Hac Hpos) as [-> | ->]; cmp_bool.
    + clear Hac; cmp_bool.
Qed.

(** X14.  Along every run of [Player.update], while the hitbox window is open
    ([attack_timer > 0]) the attack cooldown is still running, 0.27 s
    (light) or 0.66 s (heavy) ahead of the timer; so no attack ever starts
    while the hitbox of the previous one is active. *)
Theorem attack_state_machine (fs : list (R * Input)) (p : Player.t) :
  attack_ok p ->
  (exists p', run_player fs p = Some p' /\ attack_ok p') /\
  (forall dt k, 0 < Player.attack_timer p ->
     exists pf s, Player.update_started dt k p = Some (pf, s) /\
                  Player.light_started s = false /\
                  Player.heavy_started s = false).
Proof.
  intros Hp; split.
  - revert p Hp; induction fs as [|[dt k] fs IH]; intros p Hp.
    + exists p; split; [reflexivity | exact Hp].
    + destruct (attack_ok_frame dt k p Hp) as (pf & s & Hu & Hpf & _).
      cbn [run_player]; unfold Player.update; rewrite Hu; cbn [bind].
      now apply IH.
  - intros dt k Hopen.
    destruct (attack_ok_frame dt k p Hp) as (pf & s & Hu & _ & Hno).
    exists pf, s; split; [exact Hu | now apply Hno].
Qed.

Lemma attack_state_machine_witness :
  exists p',
    run_player [(0.01, light_and_heavy); (0.1, light_and_heavy); (0.5, roll_and_light)]
      (Player.init (960, 540)) = Some p' /\
    attack_ok p'.
Proof.
  apply (attack_state_machine
           [(0.01, light_and_heavy); (0.1, light_and_heavy); (0.5, roll_and_light)]
           (Player.init (960, 540))).
  unfold attack_ok; cbn; split; [lra | intros H; lra].
Defined.

(** ** Invulnerability and speed of the roll *)

Lemma roll_protected_frame (dt : R) (k : Input) (p : Player.t) :
  0 <= dt -> roll_protected p ->
  exists pf, Player.update dt k p = Some pf /\ roll_protected pf.
Proof.
  intros Hdt Hp.
  destruct (update_started_spec dt k p)
    as (p1 & mv & _ & Hu & Hbase & _ & _ & _ & Ert & _).
  eexists; split; [unfold Player.update; rewrite Hu; reflexivity|].
  destruct (move_fields dt mv (Player.attacking (snd (Player.actions k p1)))
              (Player.tick_timers dt (fst (Player.actions k p1))))
    as (_ & _ & M3 & _ & M5 & _).
  destruct (tick_timers_fields dt (fst (Player.actions k p1)))
    as (_ & _ & T3 & _ & T5 & _).
  destruct (actions_fields k p1) as (_ & _ & A3 & _ & A5).
  assert (Ei : Player.invuln_timer p1 =
               (if gtb (Player.invuln_timer p) 0
                then Rmax 0 (Player.invuln_timer p - dt)
                else Player.invuln_timer p)).
  { unfold Player.invuln_timer; rewrite Hbase.
    now destruct (update_timers_fields dt (Player.base p))
      as (_ & _ & _ & _ & _ & _ & Ti). }
  cbn zeta in *; unfold roll_protected in *.
  rewrite M3, M5, T3, T5, A3, A5, Ert, Ei.
  clear M3 M5 T3 T5 A3 A5 Ert Ei Hu Hbase.
  unfold INVULN_TIME.
  destruct (Player.roll_started _).
  - cmp_bool.
  - destruct (Rlt_dec 0 (Player.roll_timer p)) as [Hpos | Hzero].
    + specialize (Hp Hpos); cmp_bool.
    + clear Hp; cmp_bool.
Qed.

(** X15.  The player is invulnerable for the whole roll: along every run of
    [Player.update] with frames of non-negative duration, whenever the
    player is rolling at the end of a frame its invulnerability timer is
    positive (it exceeds the roll timer by at least 0.02 s), so every
    [take_damage] in that frame is rejected. *)
Theorem rolling_is_invulnerable (fs : list (R * Input)) (p : Player.t) :
  roll_ok p -> roll_protected p ->
  Forall (fun f => 0 <= fst f) fs ->
  exists p',
    run_player fs p = Some p' /\
    (Player.is_rolling p' = true ->
     0 < Player.invuln_timer p' /\
     forall amount, Player.take_damage p' amount = (false, p')).
Proof.
  intros Hok Hprot Hfs.
  assert (Hrun : exists p', run_player fs p = Some p' /\
                            roll_ok p' /\ roll_protected p').
  { revert p Hok Hprot; induction Hfs as [|[dt k] fs Hdt _ IH];
      intros p Hok Hprot.
    - exists p; auto.
    - destruct (roll_ok_frame dt k p Hok) as (pf & s & Hu & Hok' & _).
      destruct (roll_protected_frame dt k p Hdt Hprot) as (pf' & Hu' & Hprot').
      unfold Player.update in Hu'; rewrite Hu in Hu'; cbn in Hu'.
      injection Hu' as <-.
      cbn [run_player]; unfold Player.update; rewrite Hu; cbn [bind].
      now apply IH. }
  destruct Hrun as (p' & Hrun & (Hrt & Hir & _) & Hprot').
  exists p'; split; [exact Hrun|].
  intros Hroll; rewrite Hir in Hroll; apply gtb_true in Hroll.
  specialize (Hprot' Hroll).
  split; [lra|].
  intros amount; unfold Player.take_damage.
  rewrite take_damage_rejected by (left; unfold Player.invuln_timer in *; lra).
  now destruct p'.
Qed.

Lemma rolling_is_invulnerable_witness :
  exists p',
    run_player [(0.01, roll_only); (0.1, no_input)] (Player.init (960, 540))
    = Some p' /\
    (Player.is_rolling p' = true ->
     0 < Player.invuln_timer p' /\
     forall amount, Player.take_damage p' amount = (false, p')).
Proof.
  apply (rolling_is_invulnerable [(0.01, roll_only); (0.1, no_input)]
           (Player.init (960, 540))).
  - unfold roll_ok; cbn; repeat split.
    + lra.
    + unfold gtb; destruct (Rlt_dec 0 0.0); [lra | reflexivity].
    + intros H; lra.
  - unfold roll_protected; cbn; intros H; lra.
  - repeat constructor; cbn; lra.
Defined.

Lemma tick_rolling_vel (dt : R) (p : Player.t) :
  Player.is_rolling (Player.tick_timers dt p) = true ->
  Player.is_rolling p = true /\
  Player.vel (Player.tick_timers dt p) = Player.vel p.
Proof.
  destruct p as [b st at_ ac rt rc f rolling].
  unfold Player.tick_timers; split_ifs_in_order;
    intros H; split; (reflexivity || congruence).
Qed.

Lemma move_rolling_vel (dt : R) (mv : Vector2) (a : bool) (p : Player.t) :
  Player.is_rolling p = true ->
  Player.vel (Player.move dt mv a p) = Player.vel p.
Proof.
  destruct p as [b st at_ ac rt rc f rolling]; cbn; intros ->.
  unfold Player.move; cbn; reflexivity.
Qed.

Lemma length_squared_vscale (v : Vector2) (c : R) :
  length_squared (vscale v c) = c * c * length_squared v.
Proof. unfold length_squared, vscale; cbn; ring. Qed.

Lemma roll_speed_frame (dt : R) (k : Input) (p : Player.t) :
  roll_speed_ok p ->
  exists pf, Player.update dt k p = Some pf /\ roll_speed_ok pf.
Proof.
  intros (Hf & Hv).
  destruct (update_started_spec dt k p)
    as (p1 & mv & _ & Hu & Hbase & _ & _ & _ & _ & _ & Eir & Hfacing).
  eexists; split; [unfold Player.update; rewrite Hu; reflexivity|].
  set (q := fst (Player.actions k p1)).
  set (a := Player.attacking (snd (Player.actions k p1))).
  destruct (move_fields dt mv a (Player.tick_timers dt q))
    as (_ & _ & _ & _ & _ & Mf & Mr & _).
  destruct (tick_timers_fields dt q) as (_ & _ & _ & _ & _ & Tf & _).
  destruct (actions_base k p1) as (_ & _ & _ & _ & Af).
  destruct (actions_roll_state k p1) as (Ar & Av).
  cbn zeta in *; fold q in Af, Ar, Av.
  assert (Hf1 : length_squared (Player.facing p1) = 1).
  { destruct Hfacing as [-> | H]; assumption. }
  split.
  - now rewrite Mf, Tf, Af.
  - rewrite Mr; intros Hroll.
    destruct (tick_rolling_vel dt q Hroll) as (Hq & Hvq).
    rewrite move_rolling_vel by exact Hroll.
    rewrite Hvq, Av.
    destruct (Player.roll_started _).
    + rewrite length_squared_vscale, Hf1; ring.
    + rewrite Ar, Eir in Hq.
      assert (Ev : Player.vel p1 = Player.vel p).
      { unfold Player.vel; rewrite Hbase.
        now destruct (update_timers_fields dt (Player.base p)) as (_ & Tv & _). }
      rewrite Ev; now apply Hv.
Qed.

(** X16.  While the player is rolling its velocity has length exactly
    [ROLL_SPEED] (420): the roll sets it along the unit facing and neither
    the countdowns nor the movement blending touch it until the roll
    ends.  This holds at the end of every frame of every run. *)
Theorem rolling_speed_is_roll_speed (fs : list (R * Input)) (p : Player.t) :
  roll_speed_ok p ->
  exists p',
    run_player fs p = Some p' /\
    (Player.is_rolling p' = true -> length (Player.vel p') = ROLL_SPEED).
Proof.
  intros Hp.
  assert (Hrun : exists p', run_player fs p = Some p' /\ roll_speed_ok p').
  { revert p Hp; induction fs as [|[dt k] fs IH]; intros p Hp.
    - exists p; auto.
    - destruct (roll_speed_frame dt k p Hp) as (pf & Hu & Hpf).
      cbn [run_player]; rewrite Hu; cbn [bind]; now apply IH. }
  destruct Hrun as (p' & Hrun & _ & Hv).
  exists p'; split; [exact Hrun|].
  intros Hroll; unfold length; rewrite (Hv Hroll).
  apply sqrt_square; unfold ROLL_SPEED; lra.
Qed.

Lemma rolling_speed_is_roll_speed_witness :
  exists p',
    run_player [(0.01, roll_only); (0.1, no_input)] (Player.init (960, 540))
    = Some p' /\
    (Player.is_rolling p' = true -> length (Player.vel p') = ROLL_SPEED).
Proof.
  apply (rolling_speed_is_roll_speed [(0.01, roll_only); (0.1, no_input)]
           (Player.init (960, 540))).
  split.
  - unfold length_squared; cbn; lra.
  - cbn; discriminate.
Defined.

(** ** The knockback *)

Lemma length_squared_zero (v : Vector2) : length_squared v = 0 -> v = (0, 0).
Proof.
  destruct v as [x y]; unfold length_squared; cbn; intros H.
  assert (x = 0) by nra; assert (y = 0) by nra; now subst.
Qed.

Lemma vsub_zero (a b : Vector2) : vsub a b = (0, 0) -> a = b.
Proof.
  destruct a as [ax ay], b as [bx by_]; unfold vsub; cbn; intros H.
  injection H as Hx Hy; f_equal; lra.
Qed.

(** Moving a point by [c] along the unit vector of its offset [v] from an
    origin lengthens the offset by exactly [c]. *)
Lemma length_pushed (v : Vector2) (c : R) :
  0 < length v -> 0 <= length v + c ->
  length (vadd v (vx v / length v * c, vy v / length v * c)) = length v + c.
Proof.
  intros Hd Hc.
  pose proof (length_sqr v) as Hsq.
  remember (length v) as d eqn:Ed.
  unfold length at 1.
  replace (length_squared (vadd v (vx v / d * c, vy v / d * c)))
    with ((d + c) * (d + c)); [now apply sqrt_square|].
  destruct v as [x y]; unfold length_squared, vadd in *; cbn in *.
  replace ((x + x / d * c) * (x + x / d * c) + (y + y / d * c) * (y + y / d * c))
    with ((x * x + y * y) * ((d + c) * (d + c)) / (d * d)) by (field; lra).
  rewrite <- Hsq; field; lra.
Qed.

Lemma enemy_take_damage_snd (en : Enemy.t) (a : R) :
  snd (Enemy.take_damage en a)
  = Enemy.set_base en (snd (Entity.take_damage (Enemy.base en) a)).
Proof.
  unfold Enemy.take_damage.
  now destruct (Entity.take_damage (Enemy.base en) a).
Qed.

Lemma take_damage_pos (e : Entity.t) (a : R) :
  Entity.pos (snd (Entity.take_damage e a)) = Entity.pos e.
Proof. unfold Entity.take_damage; split_ifs; reflexivity. Qed.

(** X10.  An alive enemy inside the hitbox that is not exactly at the player's
    position is pushed 12 units straight away from the player: its
    distance to the player grows by exactly 12.  The push does not depend
    on the damage: an invulnerable enemy keeps its [hp] and is pushed all
    the same.  Nothing but the position differs from the result of
    [take_damage]. *)
Theorem knockback_pushes_away (center : Vector2) (radius : R) (pl : Player.t)
    (en : Enemy.t) :
  Enemy.alive en = true ->
  circle_collide center radius (Enemy.pos en) (Enemy.radius en) = true ->
  Enemy.pos en <> Player.pos pl ->
  exists en',
    resolve_hit center radius pl en = Some en' /\
    length (vsub (Enemy.pos en') (Player.pos pl))
    = length (vsub (Enemy.pos en) (Player.pos pl)) + 12 /\
    en' = Enemy.set_pos (snd (Enemy.take_damage en 28)) (Enemy.pos en') /\
    (0 < Enemy.invuln_timer en -> Enemy.hp en' = Enemy.hp en).
Proof.
  intros Ha Hc Hne; unfold resolve_hit; rewrite Ha, Hc; cbn [andb].
  assert (Hpos : Enemy.pos (snd (Enemy.take_damage en 28)) = Enemy.pos en).
  { rewrite enemy_take_damage_snd; unfold Enemy.pos; cbn.
    apply take_damage_pos. }
  rewrite Hpos.
  set (dir := vsub (Enemy.pos en) (Player.pos pl)) in *.
  assert (Hls : 0 < length_squared dir).
  { destruct (Rle_lt_dec (length_squared dir) 0) as [Hz | H]; [|exact H].
    exfalso; apply Hne, vsub_zero, length_squared_zero.
    pose proof (length_squared_nonneg dir); fold dir; lra. }
  assert (Hd : 0 < length dir) by (now apply sqrt_lt_R0).
  rewrite (proj2 (gtb_true _ _) Hls).
  unfold normalize; rewrite (proj2 (eqb_false _ _)) by lra; cbn [bind].
  eexists; split; [reflexivity|].
  split; [|split].
  - unfold Enemy.pos at 1; cbn [Enemy.set_pos Enemy.set_base Enemy.base
                                 Entity.set_pos Entity.pos].
    rewrite <- (length_pushed dir 12) by lra.
    f_equal; unfold vsub, vadd, vscale, dir; cbn.
    destruct (Enemy.pos en) as [ex ey], (Player.pos pl) as [px py]; cbn.
    f_equal; lra.
  - unfold Enemy.pos at 1; cbn; reflexivity.
  - intros Hi; unfold Enemy.hp, Enemy.invuln_timer in *.
    rewrite enemy_take_damage_snd; cbn.
    now rewrite take_damage_rejected by (now left).
Qed.

Lemma knockback_pushes_away_witness :
  exists en',
    resolve_hit (40, 0) 30 (Player.init (0, 0)) (Enemy.init (40, 0)) = Some en' /\
    length (vsub (Enemy.pos en') (Player.pos (Player.init (0, 0))))
    = length (vsub (Enemy.pos (Enemy.init (40, 0)))
                (Player.pos (Player.init (0, 0)))) + 12 /\
    en' = Enemy.set_pos (snd (Enemy.take_damage (Enemy.init (40, 0)) 28))
            (Enemy.pos en') /\
    (0 < Enemy.invuln_timer (Enemy.init (40, 0)) ->
     Enemy.hp en' = Enemy.hp (Enemy.init (40, 0))).
Proof.
  apply (knockback_pushes_away (40, 0) 30 (Player.init (0, 0))
           (Enemy.init (40, 0))).
  - reflexivity.
  - unfold circle_collide, length_squared, vsub; cbn.
    apply leb_true; lra.
  - cbn; intros H; injection H as H; lra.
Defined.

(** ** The chase *)

Lemma clamp_inside (x a b : R) : a <= x <= b -> clamp x a b = x.
Proof. intros; cmp_cases. Qed.

(** A step of length [sp * dt] from [(ex, ey)] towards [(px, py)], not
    longer than their distance [d]: the new point is between the two (so
    inside the arena when both are) and its distance to [(px, py)] is
    [d - sp * dt]. *)
Lemma approach_geometry (px py ex ey sp dt : R) :
  let d := length (vsub (px, py) (ex, ey)) in
  let x' := ex + (px - ex) / d * sp * dt in
  let y' := ey + (py - ey) / d * sp * dt in
  0 < d -> 0 <= sp * dt <= d ->
  in_arena (px, py) -> in_arena (ex, ey) ->
  in_arena (x', y') /\ length (vsub (px, py) (x', y')) = d - sp * dt.
Proof.
  cbn zeta.
  pose proof (length_sqr (vsub (px, py) (ex, ey))) as Hsq.
  remember (length (vsub (px, py) (ex, ey))) as d eqn:Ed.
  unfold length_squared, vsub, in_arena, WIDTH, HEIGHT in *; cbn in *.
  intros Hd Hs [Hpx Hpy] [Hex Hey].
  set (t := sp * dt / d).
  assert (Ht : 0 <= t <= 1).
  { unfold t; split.
    - apply Rmult_le_pos; [lra | left; now apply Rinv_0_lt_compat].
    - apply (Rmult_le_reg_r d); [exact Hd|].
      unfold Rdiv; rewrite Rmult_assoc, Rinv_l by lra; lra. }
  assert (Ex : ex + (px - ex) / d * sp * dt = ex + (px - ex) * t)
    by (unfold t; field; lra).
  assert (Ey : ey + (py - ey) / d * sp * dt = ey + (py - ey) * t)
    by (unfold t; field; lra).
  assert (Es : sp * dt = t * d) by (unfold t; field; lra).
  rewrite Ex, Ey, Es; clear Ex Ey Es.
  split.
  - assert (0 <= t * (px - 20)) by (apply Rmult_le_pos; lra).
    assert (0 <= (1 - t) * (ex - 20)) by (apply Rmult_le_pos; lra).
    assert (0 <= t * (1900 - px)) by (apply Rmult_le_pos; lra).
    assert (0 <= (1 - t) * (1900 - ex)) by (apply Rmult_le_pos; lra).
    assert (0 <= t * (py - 20)) by (apply Rmult_le_pos; lra).
    assert (0 <= (1 - t) * (ey - 20)) by (apply Rmult_le_pos; lra).
    assert (0 <= t * (1060 - py)) by (apply Rmult_le_pos; lra).
    assert (0 <= (1 - t) * (1060 - ey)) by (apply Rmult_le_pos; lra).
    repeat split; lra.
  - unfold length, length_squared; cbn.
    replace ((px - (ex + (px - ex) * t)) * (px - (ex + (px - ex) * t))
             + (py - (ey + (py - ey) * t)) * (py - (ey + (py - ey) * t)))
      with (((px - ex) * (px - ex) + (py - ey) * (py - ey))
            * ((1 - t) * (1 - t))) by ring.
    rewrite <- Hsq.
    replace (d * d * ((1 - t) * (1 - t))) with ((d - t * d) * (d - t * d)) by ring.
    apply sqrt_square.
    assert (0 <= (1 - t) * d) by (apply Rmult_le_pos; lra); lra.
Qed.

(** X8.  An alive enemy that sees the player (distance below 300) and is out
    of reach (distance above the two radii plus 6) walks straight at the
    player: with both inside the arena and a step [speed * dt] between 0
    and the distance, [update] leaves the player alone, sets a velocity of
    length [speed] and shortens the distance to the player by exactly
    [speed * dt]. *)
Theorem chase_closes_in (dt : R) (rnd : Enemy.Rnd) (pl : Player.t)
    (e : Enemy.t) :
  let dist := length (vsub (Player.pos pl) (Enemy.pos e)) in
  Enemy.alive e = true ->
  in_arena (Enemy.pos e) -> in_arena (Player.pos pl) ->
  0 <= Enemy.radius e + Player.radius pl + 6 < dist -> dist < 300 ->
  0 <= Enemy.speed e * dt <= dist ->
  exists e',
    Enemy.update dt rnd pl e = Some (e', pl) /\
    length_squared (Enemy.vel e') = Enemy.speed e * Enemy.speed e /\
    length (vsub (Player.pos pl) (Enemy.pos e')) = dist - Enemy.speed e * dt.
Proof.
  cbn zeta; intros Ha Hae Hap Hreach Hsee Hstep.
  destruct e as [[[ex ey] vl rd h mh al iv] cd sp rt].
  unfold Enemy.alive, Enemy.pos, Enemy.radius in *; cbn in Ha, Hae, Hreach, Hsee, Hstep.
  subst al.
  remember (Player.pos pl) as pp eqn:Epp; destruct pp as [px py].
  set (d := length (vsub (px, py) (ex, ey))) in *.
  assert (Hd : 0 < d) by lra.
  destruct (approach_geometry px py ex ey sp dt Hd Hstep Hap Hae) as (Hin & Hlen).
  fold d in Hin, Hlen; destruct Hin as [Hx Hy]; cbn [vx vy fst snd] in Hx, Hy.
  assert (Hn : normalize (vsub (px, py) (ex, ey))
               = Some ((px - ex) / d, (py - ey) / d)).
  { unfold normalize; fold d; now rewrite (proj2 (eqb_false d 0)) by lra. }
  unfold Enemy.update, Entity.update_timers, Enemy.update_near.
  cbn -[Rmax].
  assert (Hunit : length_squared ((px - ex) / d, (py - ey) / d) = 1).
  { pose proof (length_sqr (vsub (px, py) (ex, ey))) as Hsq; fold d in Hsq.
    unfold length_squared, vsub in *; cbn in *.
    replace ((px - ex) / d * ((px - ex) / d) + (py - ey) / d * ((py - ey) / d))
      with (((px - ex) * (px - ex) + (py - ey) * (py - ey)) / (d * d))
      by (field; lra).
    rewrite <- Hsq; field; lra. }
  destruct (gtb iv 0); cbn -[Rmax]; rewrite <- Epp; fold d;
    rewrite (proj2 (ltb_true d 300) Hsee); cbn -[Rmax];
    unfold Enemy.radius; cbn -[Rmax];
    rewrite (proj2 (gtb_true d (rd + Player.radius pl + 6))) by lra;
    rewrite Hn; cbn -[Rmax];
    (destruct (gtb cd 0);
     eexists; (split; [reflexivity|]);
     unfold Enemy.vel, Enemy.pos, Enemy.set_pos, Enemy.set_vel, Enemy.set_base,
       Enemy.set_attack_cooldown, Entity.set_pos, Entity.set_vel,
       Entity.set_invuln_timer, vadd; cbn -[Rmax clamp];
     rewrite (clamp_inside _ 20 (WIDTH - 20)) by exact Hx;
     rewrite (clamp_inside _ 20 (HEIGHT - 20)) by exact Hy;
     (split; [rewrite length_squared_vscale, Hunit; ring | exact Hlen])).
Qed.

Lemma chase_closes_in_witness :
  exists e',
    Enemy.update 0.01 (Enemy.mkRnd 3 0.5 0.5) (Player.init (960, 540))
      (Enemy.init (860, 540)) = Some (e', Player.init (960, 540)) /\
    length_squared (Enemy.vel e') = 100 * 100 /\
    length (vsub (960, 540) (Enemy.pos e'))
    = length (vsub (960, 540) (860, 540)) - 100 * 0.01.
Proof.
  assert (Hd : length (vsub (960, 540) (860, 540)) = 100).
  { unfold length, length_squared, vsub; cbn.
    replace ((960 - 860) * (960 - 860) + (540 - 540) * (540 - 540))
      with (100 * 100) by ring.
    apply sqrt_square; lra. }
  apply (chase_closes_in 0.01 (Enemy.mkRnd 3 0.5 0.5) (Player.init (960, 540))
           (Enemy.init (860, 540))).
  - reflexivity.
  - unfold in_arena, WIDTH, HEIGHT; cbn; lra.
  - unfold in_arena, WIDTH, HEIGHT; cbn; lra.
  - cbn; rewrite Hd; lra.
  - cbn; rewrite Hd; lra.
  - cbn; rewrite Hd; unfold ENEMY_SPEED; lra.
Defined.

(** ** The bars of the display *)

Lemma int_bounds (x : R) (n : Z) :
  0 <= x <= IZR n -> (0 <= int x <= n)%Z.
Proof.
  intros [H0 Hn]; unfold int.
  destruct (Rle_dec 0 x) as [_ | Hneg]; [|contradiction].
  destruct (base_Int_part x) as [Hle Hgt].
  split.
  - assert (IZR (-1) < IZR (Int_part x)) by (cbn; lra).
    apply lt_IZR in H; lia.
  - apply le_IZR; lra.
Qed.

Lemma ratio_sign (h m : R) :
  0 < m -> (h <= 0 -> h / m <= 0) /\ (0 <= h -> 0 <= h / m) /\
           (m <= h -> 1 <= h / m) /\ (h <= m -> h / m <= 1).
Proof.
  intros Hm.
  assert (Hinv : 0 < / m) by (now apply Rinv_0_lt_compat).
  assert (E : h / m * m = h) by (field; lra).
  repeat split; intros; nra.
Qed.

(** X20.  The health bar over an entity never overflows, whatever [hp] is: the
    ratio drawn is within [0, 1], it is 0 for an entity whose [hp] is not
    positive (a killing blow leaves it negative) or whose [max_hp] is not
    positive (the division is guarded), 1 when [hp] is [max_hp] or more,
    and the fill of the 60-wide bar is between 0 and 56 pixels wide. *)
Theorem health_bar_fill (e : Entity.t) :
  0 <= draw_health_pct e <= 1 /\
  (Entity.hp e <= 0 \/ Entity.max_hp e <= 0 -> draw_health_pct e = 0) /\
  (0 < Entity.max_hp e <= Entity.hp e -> draw_health_pct e = 1) /\
  (0 <= rect_w (draw_bar_inner (draw_health_rect e) (draw_health_pct e)) <= 56)%Z.
Proof.
  assert (Hb : 0 <= draw_health_pct e <= 1).
  { unfold draw_health_pct; apply clamp_bounds; lra. }
  split; [exact Hb|]; split; [|split].
  - unfold draw_health_pct; intros Hz.
    destruct (gtb (Entity.max_hp e) 0) eqn:Hm; reflect_cmp.
    + destruct Hz as [Hz | Hz]; [|lra].
      destruct (ratio_sign (Entity.hp e) (Entity.max_hp e) Hm) as (Hneg & _).
      specialize (Hneg Hz); cmp_cases.
    + cmp_cases.
  - unfold draw_health_pct; intros [Hm Hh].
    rewrite (proj2 (gtb_true _ _) Hm).
    destruct (ratio_sign (Entity.hp e) (Entity.max_hp e) Hm) as (_ & _ & Hone & _).
    specialize (Hone Hh); cmp_cases.
  - cbn [draw_bar_inner draw_health_rect rect_w].
    assert (Hi : (0 <= int (IZR (60 - 4) * draw_health_pct e) <= 56)%Z).
    { apply int_bounds; cbn; nra. }
    lia.
Qed.

(** X21.  The health bar of the HUD divides without the guard of
    [draw_health]: it raises exactly when the player's [max_hp] is 0; for
    a positive [max_hp] it shows the same ratio as the bar over the
    player.  The stamina bar shows [stamina / 100] unclamped as long as
    the stamina is within its range. *)
Theorem hud_bars (p : Player.t) :
  (draw_hud_hp_pct p = None <-> Player.max_hp p = 0) /\
  (0 < Player.max_hp p ->
   draw_hud_hp_pct p = Some (draw_health_pct (Player.base p))) /\
  (0 <= Player.stamina p <= 100 ->
   draw_hud_stamina_pct p = Player.stamina p / 100).
Proof.
  unfold draw_hud_hp_pct, draw_health_pct, draw_hud_stamina_pct, Player.max_hp,
    Player.hp, STAMINA_MAX.
  split; [|split].
  - destruct (eqb (Entity.max_hp (Player.base p)) 0) eqn:Hm; reflect_cmp;
      split; intros; congruence.
  - intros Hm.
    rewrite (proj2 (eqb_false _ _)) by lra.
    now rewrite (proj2 (gtb_true _ _) Hm).
  - intros Hs; apply clamp_inside; lra.
Qed.

Lemma hud_bars_witness :
  draw_hud_hp_pct (Player.init (960, 540))
  = Some (draw_health_pct (Player.base (Player.init (960, 540)))) /\
  draw_hud_stamina_pct (Player.init (960, 540))
  = Player.stamina (Player.init (960, 540)) / 100.
Proof.
  destruct (hud_bars (Player.init (960, 540))) as (_ & Hhp & Hst).
  split.
  - apply Hhp; cbn; lra.
  - apply Hst; cbn; unfold STAMINA_MAX; lra.
Defined.

Lemma health_bar_fill_witness :
  draw_health_pct (Entity.mk (500, 500) (0, 0) 16 (-4) 80 false 0.5) = 0 /\
  draw_health_pct (Entity.mk (500, 500) (0, 0) 16 80 80 true 0) = 1.
Proof.
  split.
  - apply (health_bar_fill (Entity.mk (500, 500) (0, 0) 16 (-4) 80 false 0.5)).
    left; cbn; lra.
  - apply (health_bar_fill (Entity.mk (500, 500) (0, 0) 16 80 80 true 0)).
    cbn; lra.
Defined.

(** ** Direction keys and facing *)

Lemma read_direction_closed (k : Input) :
  Player.read_direction k =
  (pressed (K_d k || K_RIGHT k) - pressed (K_a k || K_LEFT k),
   pressed (K_s k || K_DOWN k) - pressed (K_w k || K_UP k)).
Proof.
  unfold Player.read_direction, pressed.
  destruct (K_w k || K_UP k), (K_s k || K_DOWN k), (K_a k || K_LEFT k),
    (K_d k || K_RIGHT k); cbn; f_equal; lra.
Qed.

(** The local [mv] and the facing after the first part of a frame. *)
Lemma begin_frame_direction (dt : R) (k : Input) (p p1 : Player.t)
    (mv : Vector2) :
  Player.begin_frame dt k p = Some (p1, mv) ->
  (0 < length_squared (Player.read_direction k) /\
   normalize (Player.read_direction k) = Some mv /\
   Player.facing p1 = mv /\ length_squared mv = 1) \/
  (length_squared (Player.read_direction k) = 0 /\
   mv = Player.read_direction k /\ Player.facing p1 = Player.facing p).
Proof.
  unfold Player.begin_frame.
  destruct (gtb (length_squared (Player.read_direction k)) 0) eqn:Hmv;
    reflect_cmp.
  - destruct (normalize_nonzero _ Hmv) as (n & Hn & Hu).
    rewrite Hn; cbn; intros H; injection H as <- <-.
    left; repeat split; auto.
    destruct (Player.is_rolling p); reflexivity.
  - cbn; intros H; injection H as <- <-.
    right; split; [|split; [reflexivity|]].
    + pose proof (length_squared_nonneg (Player.read_direction k)); lra.
    + destruct (Player.is_rolling p); reflexivity.
Qed.

(** X19.  The direction keys act as numbers, opposite keys cancelling
    ([x] = right - left, [y] = down - up, a key and its arrow counting
    once).  After [update] the facing is the unit vector of that direction
    when it is not zero, and the facing of before when it is zero (no key,
    or only cancelling keys); it always stays a unit vector. *)
Theorem facing_follows_keys (dt : R) (k : Input) (p : Player.t) :
  let raw := (pressed (K_d k || K_RIGHT k) - pressed (K_a k || K_LEFT k),
              pressed (K_s k || K_DOWN k) - pressed (K_w k || K_UP k)) in
  exists pf,
    Player.update dt k p = Some pf /\
    (raw = (0, 0) -> Player.facing pf = Player.facing p) /\
    (raw <> (0, 0) ->
     normalize raw = Some (Player.facing pf) /\
     length_squared (Player.facing pf) = 1).
Proof.
  cbn zeta; rewrite <- read_direction_closed.
  destruct (update_started_spec dt k p) as (p1 & mv & Hb & Hu & _).
  eexists; split; [unfold Player.update; rewrite Hu; reflexivity|].
  destruct (move_fields dt mv (Player.attacking (snd (Player.actions k p1)))
              (Player.tick_timers dt (fst (Player.actions k p1))))
    as (_ & _ & _ & _ & _ & Mf & _).
  destruct (tick_timers_fields dt (fst (Player.actions k p1)))
    as (_ & _ & _ & _ & _ & Tf & _).
  destruct (actions_base k p1) as (_ & _ & _ & _ & Af).
  cbn zeta in *; rewrite Mf, Tf, Af.
  destruct (begin_frame_direction dt k p p1 mv Hb)
    as [(Hpos & Hn & Hf & Hu1) | (Hz & Hmv & Hf)].
  - split.
    + intros Hraw; rewrite Hraw in Hpos; unfold length_squared in Hpos;
        cbn in Hpos; lra.
    + intros _; rewrite Hf; auto.
  - split; [intros _; exact Hf|].
    intros Hraw; exfalso; apply Hraw.
    now apply length_squared_zero.
Qed.

Lemma facing_follows_keys_witness :
  exists pf,
    Player.update 0.01
      (mkInput true false true false false false true false
               false false false false false)
      (Player.init (960, 540)) = Some pf /\
    normalize (pressed (true || false) - pressed (false || false),
               pressed (true || false) - pressed (true || false))
    = Some (Player.facing pf) /\
    length_squared (Player.facing pf) = 1.
Proof.
  destruct (facing_follows_keys 0.01
              (mkInput true false true false false false true false
                       false false false false false)
              (Player.init (960, 540))) as (pf & Hu & _ & Hdir).
  exists pf; split; [exact Hu|].
  apply Hdir; cbn; intros H; injection H as H _; lra.
Defined.

(** ** The speed of the player *)

(** Blending towards a target keeps the velocity inside every disc that
    holds both the velocity and the target. *)
Lemma blend_bound (v t : Vector2) (c m : R) :
  0 <= c <= 1 ->
  length_squared v <= m -> length_squared t <= m ->
  length_squared (vadd v (vscale (vsub t v) c)) <= m.
Proof.
  destruct v as [vx0 vy0], t as [tx ty].
  unfold length_squared, vadd, vscale, vsub; cbn; intros Hc Hv Ht.
  replace ((vx0 + (tx - vx0) * c) * (vx0 + (tx - vx0) * c)
           + (vy0 + (ty - vy0) * c) * (vy0 + (ty - vy0) * c))
    with ((1 - c) * (1 - c) * (vx0 * vx0 + vy0 * vy0)
          + c * c * (tx * tx + ty * ty)
          + (1 - c) * c * (2 * (vx0 * tx + vy0 * ty))) by ring.
  assert (Hdot : 2 * (vx0 * tx + vy0 * ty)
                 <= (vx0 * vx0 + vy0 * vy0) + (tx * tx + ty * ty)).
  { pose proof (Rle_0_sqr (vx0 - tx)); pose proof (Rle_0_sqr (vy0 - ty)).
    unfold Rsqr in *; lra. }
  assert (H1 : 0 <= (1 - c) * (1 - c)) by (apply Rmult_le_pos; lra).
  assert (H2 : 0 <= c * c) by (apply Rmult_le_pos; lra).
  assert (H3 : 0 <= (1 - c) * c) by (apply Rmult_le_pos; lra).
  assert (B1 : (1 - c) * (1 - c) * (vx0 * vx0 + vy0 * vy0)
               <= (1 - c) * (1 - c) * m)
    by (apply Rmult_le_compat_l; assumption).
  assert (B2 : c * c * (tx * tx + ty * ty) <= c * c * m)
    by (apply Rmult_le_compat_l; assumption).
  assert (B3 : (1 - c) * c * (2 * (vx0 * tx + vy0 * ty))
               <= (1 - c) * c * (2 * m))
    by (apply Rmult_le_compat_l; [assumption | lra]).
  replace m with ((1 - c) * (1 - c) * m + c * c * m + (1 - c) * c * (2 * m))
    at 4 by ring.
  lra.
Qed.

Lemma tick_vel_cases (dt : R) (p : Player.t) :
  Player.vel (Player.tick_timers dt p) = Player.vel p \/
  Player.vel (Player.tick_timers dt p) = (0, 0).
Proof.
  destruct p as [b st at_ ac rt rc f rolling].
  unfold Player.tick_timers; split_ifs_in_order; auto.
Qed.

Lemma move_vel_cases (dt : R) (mv : Vector2) (a : bool) (p : Player.t) :
  Player.vel (Player.move dt mv a p) = Player.vel p \/
  Player.vel (Player.move dt mv a p) =
  vadd (Player.vel p)
    (vscale (vsub (vscale mv PLAYER_SPEED) (Player.vel p)) (clamp (10 * dt) 0 1)).
Proof.
  destruct p as [b st at_ ac rt rc f rolling].
  unfold Player.move; split_ifs_in_order; auto.
Qed.

Lemma speed_ok_frame (dt : R) (k : Input) (p : Player.t) :
  speed_ok p -> exists pf, Player.update dt k p = Some pf /\ speed_ok pf.
Proof.
  intros (Hf & Hv).
  destruct (update_started_spec dt k p)
    as (p1 & mv & Hb & Hu & Hbase & _ & _ & _ & _ & _ & _ & Hfacing).
  eexists; split; [unfold Player.update; rewrite Hu; reflexivity|].
  set (q := fst (Player.actions k p1)).
  set (a := Player.attacking (snd (Player.actions k p1))).
  destruct (move_fields dt mv a (Player.tick_timers dt q))
    as (_ & _ & _ & _ & _ & Mf & _).
  destruct (tick_timers_fields dt q) as (_ & _ & _ & _ & _ & Tf & _).
  destruct (actions_base k p1) as (_ & _ & _ & _ & Af).
  destruct (actions_roll_state k p1) as (_ & Av).
  cbn zeta in *; fold q in Af, Av.
  assert (Hf1 : length_squared (Player.facing p1) = 1).
  { destruct Hfacing as [-> | H]; assumption. }
  assert (Ev : Player.vel p1 = Player.vel p).
  { unfold Player.vel; rewrite Hbase.
    now destruct (update_timers_fields dt (Player.base p)) as (_ & Tv & _). }
  assert (Hq : length_squared (Player.vel q) <= ROLL_SPEED * ROLL_SPEED).
  { rewrite Av; destruct (Player.roll_started _).
    - rewrite length_squared_vscale, Hf1; lra.
    - now rewrite Ev. }
  assert (Ht : length_squared (Player.vel (Player.tick_timers dt q))
               <= ROLL_SPEED * ROLL_SPEED).
  { destruct (tick_vel_cases dt q) as [-> | ->]; [exact Hq|].
    unfold length_squared, ROLL_SPEED; cbn; lra. }
  assert (Hmv : length_squared (vscale mv PLAYER_SPEED) <= ROLL_SPEED * ROLL_SPEED).
  { rewrite length_squared_vscale.
    destruct (begin_frame_direction dt k p p1 mv Hb)
      as [(_ & _ & _ & ->) | (Hz & -> & _)];
      [|rewrite Hz]; unfold PLAYER_SPEED, ROLL_SPEED; lra. }
  split; [now rewrite Mf, Tf, Af|].
  destruct (move_vel_cases dt mv a (Player.tick_timers dt q)) as [-> | ->];
    [exact Ht|].
  apply blend_bound; [apply clamp_bounds; lra | exact Ht | exact Hmv].
Qed.

(** X17.  The player never moves faster than the roll: along every run of
    [Player.update], from a state with unit facing and a velocity of
    length at most [ROLL_SPEED] (420), the velocity at the end of every
    frame has length at most 420, for every [dt] and every input. *)
Theorem speed_never_exceeds_roll_speed (fs : list (R * Input)) (p : Player.t) :
  speed_ok p ->
  exists p',
    run_player fs p = Some p' /\ length (Player.vel p') <= ROLL_SPEED.
Proof.
  intros Hp.
  assert (Hrun : exists p', run_player fs p = Some p' /\ speed_ok p').
  { revert p Hp; induction fs as [|[dt k] fs IH]; intros p Hp.
    - exists p; auto.
    - destruct (speed_ok_frame dt k p Hp) as (pf & Hu & Hpf).
      cbn [run_player]; rewrite Hu; cbn [bind]; now apply IH. }
  destruct Hrun as (p' & Hrun & _ & Hv).
  exists p'; split; [exact Hrun|].
  rewrite <- (sqrt_square ROLL_SPEED) by (unfold ROLL_SPEED; lra).
  now apply sqrt_le_1_alt.
Qed.

Lemma speed_never_exceeds_roll_speed_witness :
  exists p',
    run_player [(0.01, roll_only); (0.3, roll_and_light)] (Player.init (960, 540))
    = Some p' /\
    length (Player.vel p') <= ROLL_SPEED.
Proof.
  apply (speed_never_exceeds_roll_speed [(0.01, roll_only); (0.3, roll_and_light)]
           (Player.init (960, 540))).
  split; unfold length_squared, ROLL_SPEED; cbn; lra.
Defined.

(** ** Stamina regeneration *)

(** X18.  Stamina does not regenerate while rolling: a frame that begins with
    the player rolling never ends with more stamina than it began with.
    And in a frame with no roll or attack key pressed nothing is debited:
    the stamina stays (rolling) or is regenerated by 20 per second,
    clamped to [0, 100] (not rolling). *)
Theorem stamina_regeneration (dt : R) (k : Input) (p : Player.t) :
  exists pf,
    Player.update dt k p = Some pf /\
    (Player.is_rolling p = true -> Player.stamina pf <= Player.stamina p) /\
    (K_SPACE k || mouse2 k = false -> K_j k || mouse0 k = false ->
     K_k k = false ->
     Player.stamina pf =
     (if Player.is_rolling p then Player.stamina p
      else clamp (Player.stamina p + 20 * dt) 0 100)).
Proof.
  destruct (update_started_spec dt k p)
    as (p1 & mv & _ & Hu & _ & Hst & _).
  eexists; split; [unfold Player.update; rewrite Hu; reflexivity|].
  rewrite move_stamina, tick_timers_stamina, actions_unfold; cbn [fst].
  set (r := Player.try_roll k p1).
  set (l := Player.try_light k (fst r)).
  set (h := Player.try_heavy k (fst l)).
  pose proof (try_roll_stamina k p1) as Sr.
  pose proof (try_light_stamina k (fst r)) as Sl.
  pose proof (try_heavy_stamina k (fst l)) as Sh.
  pose proof (proj1 (try_roll_spec k p1)) as Hr.
  pose proof (proj1 (try_light_spec k (fst r))) as Hl.
  pose proof (proj1 (try_heavy_spec k (fst l))) as Hh.
  fold r in Sr, Hr; fold l in Sl, Hl; fold h in Sh, Hh.
  unfold LIGHT_ATTACK_COST, HEAVY_ATTACK_COST, STAMINA_RECOVERY_RATE,
    STAMINA_MAX in *.
  split.
  - intros Hroll; rewrite Hroll in Hst.
    rewrite Sh, Sl, Sr, Hst.
    destruct (snd h), (snd l), (snd r); lra.
  - intros Kr Kl Kh.
    assert (Er : snd r = false).
    { destruct (snd r); [|reflexivity].
      destruct (proj1 Hr eq_refl) as (Hk & _); congruence. }
    assert (El : snd l = false).
    { destruct (snd l); [|reflexivity].
      destruct (proj1 Hl eq_refl) as (Hk & _); congruence. }
    assert (Eh : snd h = false).
    { destruct (snd h); [|reflexivity].
      destruct (proj1 Hh eq_refl) as (Hk & _); congruence. }
    rewrite Sh, Eh, Sl, El, Sr, Er, Hst; reflexivity.
Qed.

Lemma stamina_regeneration_witness :
  exists pf,
    Player.update 0.5 no_input (Player.set_stamina (Player.init (960, 540)) 40)
    = Some pf /\
    Player.stamina pf = clamp (40 + 20 * 0.5) 0 100.
Proof.
  destruct (stamina_regeneration 0.5 no_input
              (Player.set_stamina (Player.init (960, 540)) 40))
    as (pf & Hu & _ & Hidle).
  exists pf; split; [exact Hu|].
  apply Hidle; reflexivity.
Defined.

(** ** The enemy's strike and its wandering *)

(** X7.  An alive enemy within reach of the player (and within sight) stands
    still and strikes when it can: with its cooldown run out and the
    player not invulnerable the player takes one [take_damage] of 12 (an
    alive player loses 12 [hp] and becomes invulnerable for 0.5 s) and the
    cooldown restarts from 1 s, already counted down by this frame; with
    the cooldown running or the player invulnerable the player is left
    alone.  The enemy's own [hp] is never touched. *)
Theorem enemy_strike (dt : R) (rnd : Enemy.Rnd) (pl : Player.t) (e : Enemy.t) :
  let dist := length (vsub (Player.pos pl) (Enemy.pos e)) in
  let reach := Enemy.radius e + Player.radius pl + 6 in
  Enemy.alive e = true -> 0 <= reach -> dist < 300 -> dist <= reach ->
  exists e' pl',
    Enemy.update dt rnd pl e = Some (e', pl') /\
    Enemy.hp e' = Enemy.hp e /\
    (Enemy.attack_cooldown e <= 0 -> Player.invuln_timer pl <= 0 ->
     pl' = snd (Player.take_damage pl 12) /\
     Enemy.attack_cooldown e' = Rmax 0 (1 - dt) /\
     (Player.alive pl = true ->
      Player.hp pl' = Player.hp pl - 12 /\ Player.invuln_timer pl' = 0.5)) /\
    (0 < Enemy.attack_cooldown e \/ 0 < Player.invuln_timer pl -> pl' = pl).
Proof.
  cbn zeta; intros Ha Hreach Hsee Hin.
  destruct (enemy_update_spec dt rnd pl e Hreach)
    as (e' & pl' & Hu & _ & _ & _ & _ & Halive).
  destruct (Halive Ha) as (_ & Eh & _ & Hnear & _).
  destruct (Hnear Hsee) as (Epl & Ecd); cbn zeta in Ecd.
  exists e', pl'; split; [exact Hu|]; split; [exact Eh|].
  unfold strikes in *.
  rewrite (proj2 (gtb_false _ _) Hin) in Epl, Ecd; cbn [negb andb] in Epl, Ecd.
  split.
  - intros Hc Hi.
    rewrite (proj2 (leb_true _ _) Hc), (proj2 (leb_true _ _) Hi) in Epl, Ecd.
    cbn [andb] in Epl, Ecd.
    split; [exact Epl|]; split.
    + rewrite Ecd, (proj2 (gtb_true 1.0 0)) by lra.
      f_equal; lra.
    + intros Hpa; rewrite Epl, player_take_damage_snd.
      unfold Player.hp, Player.invuln_timer, Player.alive in *.
      rewrite (take_damage_applied (Player.base pl) ENEMY_DAMAGE Hi Hpa).
      cbn; unfold ENEMY_DAMAGE; split; reflexivity.
  - intros [Hc | Hi].
    + now rewrite (proj2 (leb_false _ _) Hc) in Epl.
    + rewrite (proj2 (leb_false _ _) Hi) in Epl.
      now rewrite andb_false_r in Epl.
Qed.

Lemma enemy_strike_witness :
  exists e' pl',
    Enemy.update 0.01 (Enemy.mkRnd 3 0.5 0.5) (Player.init (960, 540))
      (Enemy.init (930, 540)) = Some (e', pl') /\
    Enemy.hp e' = 80 /\
    pl' = snd (Player.take_damage (Player.init (960, 540)) 12) /\
    Enemy.attack_cooldown e' = Rmax 0 (1 - 0.01) /\
    Player.hp pl' = 120 - 12 /\ Player.invuln_timer pl' = 0.5.
Proof.
  assert (Hd : length (vsub (960, 540) (930, 540)) = 30).
  { unfold length, length_squared, vsub; cbn.
    replace ((960 - 930) * (960 - 930) + (540 - 540) * (540 - 540))
      with (30 * 30) by ring.
    apply sqrt_square; lra. }
  destruct (enemy_strike 0.01 (Enemy.mkRnd 3 0.5 0.5) (Player.init (960, 540))
              (Enemy.init (930, 540)))
    as (e' & pl' & Hu & Eh & Hstrike & _).
  - reflexivity.
  - cbn; lra.
  - cbn; rewrite Hd; lra.
  - cbn; rewrite Hd; lra.
  - destruct Hstrike as (Epl & Ecd & Hpl); [cbn; lra | cbn; lra |].
    destruct (Hpl eq_refl) as (Ehp & Ei).
    exists e', pl'; repeat split; assumption.
Defined.

(** X9.  An alive enemy that does not see the player (distance 300 or more)
    wanders: its velocity is damped to 0.9 of itself, or, when the draw is
    below 0.01, replaced by a velocity of half its speed in the drawn
    direction; it moves by that velocity, stays inside the arena, and
    touches neither the player nor its attack cooldown. *)
Theorem wander_step (dt : R) (rnd : Enemy.Rnd) (pl : Player.t) (e : Enemy.t) :
  Enemy.alive e = true ->
  300 <= length (vsub (Player.pos pl) (Enemy.pos e)) ->
  exists e',
    Enemy.update dt rnd pl e = Some (e', pl) /\
    Enemy.vel e' =
      (if ltb (Enemy.wander_roll rnd) 0.01
       then vscale (cos (Enemy.wander_turn rnd * Enemy.tau),
                    sin (Enemy.wander_turn rnd * Enemy.tau))
                   (Enemy.speed e * 0.5)
       else vscale (Enemy.vel e) 0.9) /\
    (Enemy.wander_roll rnd < 0.01 ->
     length_squared (Enemy.vel e')
     = (Enemy.speed e / 2) * (Enemy.speed e / 2)) /\
    Enemy.attack_cooldown e' = Enemy.attack_cooldown e /\
    in_arena (Enemy.pos e').
Proof.
  intros Ha Hfar.
  destruct e as [[ps vl rd h mh al iv] cd sp rt].
  unfold Enemy.alive, Enemy.pos in *; cbn in Ha, Hfar; subst al.
  unfold Enemy.update, Entity.update_timers, Enemy.update_far.
  cbn -[Rmax].
  destruct (gtb iv 0); cbn -[Rmax];
    unfold ltb at 1; rewrite (proj2 (gtb_false _ _) Hfar); cbn -[Rmax];
    (eexists; split; [reflexivity|]);
    (destruct (ltb (Enemy.wander_roll rnd) 0.01) eqn:Hroll;
     unfold Enemy.vel, Enemy.pos, Enemy.attack_cooldown, in_arena; cbn -[Rmax];
     (split; [reflexivity|]);
     (split;
      [ intros Hlt;
        try (apply ltb_true in Hlt; rewrite Hlt in Hroll; discriminate);
        rewrite length_squared_vscale;
        unfold length_squared; cbn;
        pose proof (sin2_cos2 (Enemy.wander_turn rnd * Enemy.tau)) as Hsc;
        unfold Rsqr in Hsc; nra
      | split; [reflexivity|];
        split; apply clamp_bounds; unfold WIDTH, HEIGHT; lra ])).
Qed.

Lemma wander_step_witness :
  exists e',
    Enemy.update 0.01 (Enemy.mkRnd 3 0.5 0.5) (Player.init (960, 540))
      (Enemy.init (100, 540)) = Some (e', Player.init (960, 540)) /\
    Enemy.vel e' = vscale (0, 0) 0.9 /\
    Enemy.attack_cooldown e' = 0.0 /\
    in_arena (Enemy.pos e').
Proof.
  assert (Hd : length (vsub (960, 540) (100, 540)) = 860).
  { unfold length, length_squared, vsub; cbn.
    replace ((960 - 100) * (960 - 100) + (540 - 540) * (540 - 540))
      with (860 * 860) by ring.
    apply sqrt_square; lra. }
  destruct (wander_step 0.01 (Enemy.mkRnd 3 0.5 0.5) (Player.init (960, 540))
              (Enemy.init (100, 540)))
    as (e' & Hu & Ev & _ & Ec & Hin).
  - reflexivity.
  - cbn; rewrite Hd; lra.
  - exists e'; split; [exact Hu|]; split; [|split; assumption].
    rewrite Ev; unfold ltb; cbn [Enemy.wander_roll].
    now rewrite (proj2 (gtb_false 0.01 0.5)) by lra.
Defined.

(** ** The player in the arena, frame after frame *)

Lemma player_take_damage_pos (pl : Player.t) (a : R) :
  Player.pos (snd (Player.take_damage pl a)) = Player.pos pl.
Proof.
  rewrite player_take_damage_snd; unfold Player.pos; cbn.
  apply take_damage_pos.
Qed.

Lemma frame_player_in_arena (i : FrameInput) (w : World) :
  world_ok w ->
  exists w', frame i w = Some w' /\ world_ok w' /\
             in_arena (Player.pos (player w')).
Proof.
  intros Hw.
  destruct (frame_ok i w Hw) as (w' & Hf & Hw').
  exists w'; split; [exact Hf|]; split; [exact Hw'|].
  destruct Hw as [Hpl Hes].
  destruct (update_started_spec (frame_dt i) (frame_keys i) (player w))
    as (p1 & mv & _ & Hu & _).
  set (pl1 := Player.move (frame_dt i) mv
                (Player.attacking (snd (Player.actions (frame_keys i) p1)))
                (Player.tick_timers (frame_dt i)
                   (fst (Player.actions (frame_keys i) p1)))) in *.
  assert (Hin : in_arena (Player.pos pl1)) by apply move_pos.
  assert (Hup : Player.update (frame_dt i) (frame_keys i) (player w) = Some pl1).
  { unfold Player.update; rewrite Hu; reflexivity. }
  destruct (player_update_ok (frame_dt i) (frame_keys i) (player w) Hpl)
    as (pl1' & Hup' & Hok1).
  rewrite Hup in Hup'; injection Hup' as <-.
  destruct (update_enemies_spec (frame_dt i) (enemy_rnd i) (enemies w) 0 pl1)
    as (es1 & pl2 & Hue & _ & Hcase).
  { destruct Hok1 as [(Hr & _) _]; exact Hr. }
  { eapply Forall_impl; [|exact Hes]; intros e (Hr & _); exact Hr. }
  assert (Hin2 : in_arena (Player.pos pl2)).
  { destruct Hcase as [-> | [-> _]]; [exact Hin|].
    now rewrite player_take_damage_pos. }
  unfold frame in Hf; rewrite Hup in Hf; cbn [bind] in Hf.
  rewrite Hue in Hf; cbn [bind] in Hf.
  destruct (Player.attack_hitbox pl2) as [hit|]; cbn [bind] in Hf;
    [|discriminate].
  destruct hit as [[center radius]|].
  - destruct (resolve_hits center radius pl2 es1) as [es2|]; cbn [bind] in Hf;
      [|discriminate].
    injection Hf as <-; exact Hin2.
  - cbn [bind] in Hf; injection Hf as <-; exact Hin2.
Qed.

(** X2.  After every frame of the simulation the player is inside the arena
    less its margin: [Player.update] clamps the position and neither the
    enemies nor the hit resolution move the player. *)
Theorem player_in_arena_every_frame (i : FrameInput) (ins : list FrameInput)
    (w : World) :
  world_ok w ->
  exists w', run (i :: ins) w = Some w' /\ in_arena (Player.pos (player w')).
Proof.
  intros Hw.
  destruct (frame_player_in_arena i w Hw) as (w1 & Hf & Hw1 & Hin1).
  cbn [run]; rewrite Hf; cbn [bind]; clear Hf Hw w.
  revert w1 Hw1 Hin1; induction ins as [|j ins IH]; intros w Hw Hin.
  - exists w; split; [reflexivity | exact Hin].
  - destruct (frame_player_in_arena j w Hw) as (w1 & Hf & Hw1 & Hin1).
    cbn [run]; rewrite Hf; cbn [bind]; now apply IH.
Qed.

Lemma player_in_arena_every_frame_witness :
  exists w',
    run [idle_frame; idle_frame] (initial_world (fun _ => (500, 500))) = Some w' /\
    in_arena (Player.pos (player w')).
Proof.
  apply (player_in_arena_every_frame idle_frame [idle_frame]
           (initial_world (fun _ => (500, 500)))).
  apply initial_world_ok.
Defined.
